(** * PersonalKnowledgeGraph: the hybrid retrieval and reasoning engine

    A shallow embedding of the query engine ([services/graph_rag.py]), the
    multi-hop traversal of the graph client ([database/neo4j_client.py]) and
    the file-search ranking ([api/files.py]).

    Modelling conventions.
    - Python [float] scores are exact rationals ([Q]); [==] is [Qeq]. The
      weighted sum is also stated in binary64 arithmetic, at the end.
    - Python [int] is [Z].
    - [str] is [string]; [len], slicing and [lower] work on bytes, so they
      agree with Python on ASCII text.
    - A dict whose iteration order is observable is an association list in
      insertion order; a record fetched from the graph is a [gmap] from
      property names to values; a [set] is a [gset].
    - A call that may raise returns a [result]; the external collaborators
      (vector store, graph database, language model, clock) are parameters,
      and every call made to one of them is appended to a call log. *)

From Stdlib Require Import QArith Qround Qabs ZArith String Ascii List Lia Lqa.
From Stdlib Require Import Floats.
From stdpp Require Import base option list gmap strings pretty sorting.

Local Open Scope string_scope.
Local Open Scope list_scope.
Local Open Scope Z_scope.

(** ** Python primitives *)

Module Py.

(** The outcome of a call: a value, or a raised exception carrying [str(e)]. *)
Inductive result (A : Type) : Type :=
| Ok (a : A)
| Raise (msg : string).
Arguments Ok {A} a.
Arguments Raise {A} msg.

(** [s[:n]] on a string, for a literal [n >= 0]. *)
Definition str_prefix (n : nat) (s : string) : string := String.substring 0 n s.

(** [s[:n] + "..." if len(s) > n else s] *)
Definition ellipsis (n : nat) (s : string) : string :=
  if (n <? String.length s)%nat then str_prefix n s +:+ "..." else s.

Definition lower_ascii (c : ascii) : ascii :=
  let n := nat_of_ascii c in
  if ((65 <=? n) && (n <=? 90))%nat then ascii_of_nat (n + 32) else c.

(** [s.lower()] *)
Fixpoint lower (s : string) : string :=
  match s with
  | EmptyString => EmptyString
  | String c s' => String (lower_ascii c) (lower s')
  end.

(** [sub in s] *)
Fixpoint str_in (sub s : string) : bool :=
  String.prefix sub s ||
  match s with
  | EmptyString => false
  | String _ s' => str_in sub s'
  end.

(** [l[:k]] on a list, for any integer [k] (a negative [k] counts from the
    end). *)
Definition slice_to {A : Type} (k : Z) (l : list A) : list A :=
  if 0 <=? k then take (Z.to_nat k) l
  else take (Z.to_nat (Z.of_nat (length l) + k)) l.

(** [sep.join(l)] *)
Fixpoint join (sep : string) (l : list string) : string :=
  match l with
  | [] => ""
  | [x] => x
  | x :: l' => x +:+ sep +:+ join sep l'
  end.

(** Comparisons on scores. *)
Definition Qltb (x y : Q) : bool := negb (Qle_bool y x).

(** [round(x, 4)]: the nearest multiple of 1/10000, ties to the even one. *)
Definition round_half_even (x : Q) : Z :=
  let fl := Qfloor x in
  match (x - inject_Z fl ?= 1 # 2)%Q with
  | Lt => fl
  | Gt => fl + 1
  | Eq => if Z.even fl then fl else fl + 1
  end.

Definition round4 (x : Q) : Q := (inject_Z (round_half_even (x * 10000)) / 10000)%Q.

(** [f"{x:.2f}"] *)
Definition fmt_2f (x : Q) : string :=
  let n := round_half_even (Qabs x * 100) in
  let frac := n mod 100 in
  (if Qltb x 0 then "-" else "") +:+ pretty (n / 100) +:+ "."
  +:+ (if frac <? 10 then "0" else "") +:+ pretty frac.

(** An insertion-ordered dict with string keys. *)
Definition dict (V : Type) : Type := list (string * V).

Fixpoint dict_get {V : Type} (k : string) (d : dict V) : option V :=
  match d with
  | [] => None
  | (k', v) :: d' => if decide (k = k') then Some v else dict_get k d'
  end.

(** [d[k] = v]: an existing key keeps its position, a new key goes last. *)
Fixpoint dict_set {V : Type} (k : string) (v : V) (d : dict V) : dict V :=
  match d with
  | [] => [(k, v)]
  | (k', v') :: d' =>
      if decide (k = k') then (k, v) :: d' else (k', v') :: dict_set k v d'
  end.

Definition dict_has {V : Type} (k : string) (d : dict V) : bool :=
  bool_decide (is_Some (dict_get k d)).

(** The keys of a dict are pairwise distinct. *)
Definition dict_ok {V : Type} (d : dict V) : Prop := NoDup (d.*1).

End Py.
Export Py.

(** ** Collaborators, the call log and the monad of engine code *)

(** A property value of a graph record as the driver returns it: a string, or
    a temporal value (with the text its [isoformat()] gives). *)
Inductive rawval : Type :=
| RStr (s : string)
| RTemporal (iso : string).

Global Instance rawval_eq_dec : EqDecision rawval.
Proof. solve_decision. Defined.

Global Instance rawval_countable : Countable rawval.
Proof.
  refine (inj_countable'
    (λ v, match v with RStr s => inl s | RTemporal s => inr s end)
    (λ x, match x with inl s => RStr s | inr s => RTemporal s end) _).
  by intros [].
Defined.

(** A node or relationship of the graph as returned by the driver, and the
    plain dict made of it. *)
Abbreviation RawNode := (gmap string rawval).
Abbreviation Entity := (gmap string string).

(** One row of the multi-hop query:
    [start, connected_entities, all_relationships]. *)
Record TraversalRecord : Type := {
  rec_start : RawNode;
  rec_connected_entities : list RawNode;
  rec_all_relationships : list (list RawNode)
}.

(** A chunk returned by [vector_store.search_by_text]. *)
Record Hit : Type := {
  hit_id : string;
  hit_text : string;
  hit_metadata : gmap string string;
  hit_distance : Q;
  hit_score : Q
}.

(** The arguments of [client.chat.completions.create]. *)
Record ChatRequest : Type := {
  chat_messages : list (string * string);
  chat_model : string;
  chat_temperature : Q;
  chat_max_tokens : option Z;
  chat_json_object : bool
}.

Record Collaborators : Type := {
  (** [vector_store.search_by_text(query_text, top_k)] *)
  vs_search_by_text : string → Z → result (list Hit);
  (** the lazily built Groq client, [None] without key or library; a call
      returns [completion.choices[0].message.content] *)
  groq_client : option (ChatRequest → result string);
  (** [json.loads(content).get("entities", [])] *)
  json_entities : string → result (list string);
  (** [session.run("MATCH (e:Entity) RETURN e LIMIT $limit")] *)
  run_all_entities : Z → result (list RawNode);
  (** [session.run] of the multi-hop query built for [max_hops], with
      [entity_ids] as parameter *)
  run_multi_hop : Z → list (option string) → result (list TraversalRecord);
  (** [session.run] of the neighbour query built for [max_depth] *)
  run_neighbors : Z → string → result (list (RawNode * Z));
  (** lookups of the graph client that the file search uses *)
  search_entities_by_name : string → result (list Entity);
  get_doc_id_by_filename : string → result (option string);
  get_document : string → result (option Entity);
  get_relationships_by_doc : string → result (list Entity);
  (** the [n]-th reading of [time.time()] *)
  clock : nat → Q
}.

(** A call made to a collaborator. *)
Inductive Call : Type :=
| CallSearchByText (query_text : string) (top_k : Z)
| CallChat (request : ChatRequest)
| CallGetAllEntities (limit : Z)
| CallMultiHop (entity_ids : list (option string)) (max_hops : Z)
| CallNeighbors (entity_id : string) (max_depth : Z)
| CallSearchEntitiesByName (query_text : string)
| CallGetDocIdByFilename (filename : string)
| CallGetDocument (doc_id : string)
| CallGetRelationshipsByDoc (doc_id : string).

(** Calls that reach the graph provider. *)
Definition is_graph_call (c : Call) : bool :=
  match c with
  | CallSearchByText _ _ | CallChat _ => false
  | _ => true
  end.

Definition graph_call_count (log : list Call) : nat :=
  length (filter (λ c, is_graph_call c = true) log).

(** The hop limits the graph provider was asked to traverse with. *)
Definition hops_requested (log : list Call) : list Z :=
  omap (λ c, match c with CallMultiHop _ h => Some h | _ => None end) log.

Record World : Type := {
  calls : list Call;
  ticks : nat
}.

Definition world0 : World := {| calls := []; ticks := 0 |}.

(** Engine code: reads and extends the world, returns or raises. *)
Definition M (A : Type) : Type := World → result A * World.

Global Instance M_ret : MRet M := λ A a w, (Ok a, w).

Global Instance M_bind : MBind M := λ A B f m w,
  match m w with
  | (Ok a, w') => f a w'
  | (Raise e, w') => (Raise e, w')
  end.

Definition raise {A : Type} (msg : string) : M A := λ w, (Raise msg, w).

(** The outcome of code that touches no collaborator. *)
Definition lift_result {A : Type} (r : result A) : M A := λ w, (r, w).

(** [try: body except Exception as e: handler(e)] *)
Definition try_except {A : Type} (body : M A) (handler : string → M A) : M A :=
  λ w, match body w with
       | (Ok a, w') => (Ok a, w')
       | (Raise e, w') => handler e w'
       end.

(** A call to a collaborator: logged, then answered. *)
Definition call {A : Type} (c : Call) (answer : result A) : M A :=
  λ w, (answer, {| calls := calls w ++ [c]; ticks := ticks w |}).

(** [time.time()] *)
Definition time_time (env : Collaborators) : M Q :=
  λ w, (Ok (clock env (ticks w)), {| calls := calls w; ticks := S (ticks w) |}).

(** Code that touches no collaborator can still raise. *)
Global Instance result_ret : MRet result := λ A a, Ok a.

Global Instance result_bind : MBind result := λ A B f r,
  match r with
  | Ok a => f a
  | Raise e => Raise e
  end.

(** [for x in l: acc = body(acc, x)] *)
Fixpoint for_each {T : Type → Type} `{!MRet T, !MBind T} {A S : Type}
    (l : list A) (body : S → A → T S) (acc : S) : T S :=
  match l with
  | [] => mret acc
  | x :: l' => acc' ← body acc x; for_each l' body acc'
  end.

(** ** [database/neo4j_client.py] *)

Module Neo4jClient.

Definition _sanitize_value (value : rawval) : string :=
  match value with
  | RTemporal iso => iso
  | RStr s => s
  end.

(** An empty record is falsy and becomes [None]. *)
Definition _sanitize_record (record : RawNode) : option Entity :=
  if decide (record = ∅) then None else Some (_sanitize_value <$> record).

Definition get_all_entities (env : Collaborators) (limit : Z) : M (list (option Entity)) :=
  result ← call (CallGetAllEntities limit) (run_all_entities env limit);
  mret (_sanitize_record <$> result).

(** A neighbour: [{"entity": ..., "distance": ...}]. *)
Record Neighbor : Type := {
  nb_entity : option Entity;
  nb_distance : Z
}.

Definition get_entity_neighbors (env : Collaborators) (entity_id : string)
    (max_depth : Z) : M (list Neighbor) :=
  result ← call (CallNeighbors entity_id max_depth) (run_neighbors env max_depth entity_id);
  mret ((λ record, {| nb_entity := _sanitize_record record.1;
                      nb_distance := record.2 |}) <$> result).

(** The traversed subgraph: [{"entities": ..., "relationships": ...}]. *)
Record Subgraph : Type := {
  entities : list Entity;
  relationships : list (option Entity)
}.

(** [all_entities.add(frozenset(self._sanitize_record(dict(node)).items()))],
    guarded by [if node:]. *)
Definition add_node (all_entities : gset Entity) (node : RawNode) : gset Entity :=
  if decide (node = ∅) then all_entities
  else match _sanitize_record node with
       | Some e => all_entities ∪ {[ e ]}
       | None => all_entities
       end.

Definition add_record (all_entities : gset Entity) (record : TraversalRecord) : gset Entity :=
  foldl add_node (add_node all_entities (rec_start record)) (rec_connected_entities record).

Definition multi_hop_traversal (env : Collaborators)
    (start_entities : list (option string)) (max_hops : Z) : M Subgraph :=
  result ← call (CallMultiHop start_entities max_hops)
                (run_multi_hop env max_hops start_entities);
  let all_entities : gset Entity := foldl add_record ∅ result in
  let all_rels : list RawNode := [] in
  mret {| entities := elements all_entities;
          relationships := _sanitize_record <$> all_rels |}.

End Neo4jClient.

(** ** [services/graph_rag.py] *)

Module GraphRAGEngine.
Import Neo4jClient.

Definition nl : string := String "010"%char "".
Definition dq : string := String "034"%char "".

(** A step of the reasoning path. *)
Record ReasoningStep : Type := {
  step_number : Z;
  description : string;
  entities_involved : list string;
  relationships_used : list string;
  evidence : string
}.

Record Evidence : Type := {
  ev_source_doc : string;
  ev_chunk_text : string;
  ev_relevance_score : Q;
  ev_entities : list string
}.

Record GraphNode : Type := {
  node_id : string;
  node_name : string;
  node_type : string;
  node_source_doc : string
}.

Record GraphEdge : Type := {
  edge_id : string;
  edge_source : string;
  edge_target : string;
  edge_relationship : string
}.

Record GraphData : Type := {
  nodes : list GraphNode;
  edges : list GraphEdge;
  node_count : nat;
  edge_count : nat
}.

(** The dict [query] returns. *)
Record Response : Type := {
  question : string;
  answer : string;
  reasoning_path : list ReasoningStep;
  evidence_list : list Evidence;
  graph_context : GraphData;
  mode_used : string;
  processing_time_ms : Q
}.

(** [self.client.chat.completions.create(...)], after the check
    [if not self.client: raise Exception("Groq client not initialized")]. *)
Definition chat (env : Collaborators) (request : ChatRequest) : M string :=
  match groq_client env with
  | None => raise "Groq client not initialized"
  | Some client => call (CallChat request) (client request)
  end.

Definition _vector_search (env : Collaborators) (question : string) (top_k : Z)
    : M (list Hit) :=
  try_except
    (results ← call (CallSearchByText question top_k)
                    (vs_search_by_text env question top_k);
     mret results)
    (λ _, mret []).

Definition is_space (c : ascii) : bool :=
  let n := nat_of_ascii c in
  ((9 <=? n) && (n <=? 13) || (28 <=? n) && (n <=? 32))%nat.

Definition is_word_char (c : ascii) : bool :=
  let n := nat_of_ascii c in
  ((48 <=? n) && (n <=? 57) || (65 <=? n) && (n <=? 90) || (n =? 95)
   || (97 <=? n) && (n <=? 122))%nat.

Definition is_upper (c : ascii) : bool :=
  let n := nat_of_ascii c in ((65 <=? n) && (n <=? 90))%nat.

(** [s.split()] *)
Fixpoint split_ws (s : string) (word : string) : list string :=
  match s with
  | EmptyString => if decide (word = "") then [] else [word]
  | String c s' =>
      if is_space c
      then (if decide (word = "") then split_ws s' "" else word :: split_ws s' "")
      else split_ws s' (word +:+ String c "")
  end.

(** [re.sub(r'[^\w]', '', word)] *)
Fixpoint strip_non_word (word : string) : string :=
  match word with
  | EmptyString => EmptyString
  | String c w' =>
      if is_word_char c then String c (strip_non_word w') else strip_non_word w'
  end.

(** The fallback of [_extract_question_entities]: capitalised words and
    question words, longer than two characters. *)
Definition fallback_entities (question : string) : list string :=
  foldl (λ (entities : list string) word,
           let clean := strip_non_word word in
           match clean with
           | EmptyString => entities
           | String c _ =>
               if is_upper c
                  || bool_decide (clean ∈ ["who"; "what"; "where"; "when"; "how"])
               then (if (2 <? String.length clean)%nat
                     then entities ++ [clean] else entities)
               else entities
           end)
        [] (split_ws question "").

Definition extract_prompt (question : string) : string :=
  "Extract key entities from this question. Return a JSON object with an 'entities' array of strings."
  +:+ nl +:+ "            " +:+ nl
  +:+ "Question: " +:+ question +:+ nl +:+ nl
  +:+ "Return ONLY valid JSON like: {" +:+ dq +:+ "entities" +:+ dq +:+ ": ["
  +:+ dq +:+ "entity1" +:+ dq +:+ ", " +:+ dq +:+ "entity2" +:+ dq +:+ "]}".

Definition _extract_question_entities (env : Collaborators) (question : string)
    : M (list string) :=
  try_except
    (content ← chat env {| chat_messages := [("user", extract_prompt question)];
                           chat_model := "llama-3.3-70b-versatile";
                           chat_temperature := 0.1;
                           chat_max_tokens := None;
                           chat_json_object := true |};
     lift_result (json_entities env content))
    (λ _, mret (fallback_entities question)).

Definition empty_subgraph : Subgraph := {| entities := []; relationships := [] |}.

(** The first two loops of [_graph_traversal]. *)
Definition entities_to_explore (question_entities : list string)
    (vector_results : list Hit) : gset string :=
  let from_question :=
    foldl (λ s entity_name, s ∪ {[ lower entity_name ]}) ∅ question_entities in
  foldl (λ s result,
           let text := lower (hit_text result) in
           foldl (λ s entity_name,
                    if str_in (lower entity_name) text
                    then s ∪ {[ lower entity_name ]} else s)
                 s question_entities)
        from_question vector_results.

(** The loop over [all_entities]: the id of every entity whose name contains,
    or is contained in, a search term. *)
Definition match_entity (terms : gset string) (ids : list (option string))
    (entity : option Entity) : result (list (option string)) :=
  match entity with
  | None => Raise "'NoneType' object has no attribute 'get'"
  | Some e =>
      let entity_name := lower (default "" (e !! "name")) in
      if existsb (λ search_term,
                    str_in search_term entity_name || str_in entity_name search_term)
                 (elements terms)
      then mret (ids ++ [e !! "id"])
      else mret ids
  end.

Definition find_matching_ids (terms : gset string) (all_entities : list (option Entity))
    : result (list (option string)) :=
  for_each all_entities (match_entity terms) [].

Definition _graph_traversal (env : Collaborators) (question_entities : list string)
    (vector_results : list Hit) (max_hops : Z) : M Subgraph :=
  let terms := entities_to_explore question_entities vector_results in
  all_entities ← get_all_entities env 500;
  matching_entity_ids ← lift_result (find_matching_ids terms all_entities);
  match matching_entity_ids with
  | _ :: _ => multi_hop_traversal env (take 10 matching_entity_ids) max_hops
  | [] => mret empty_subgraph
  end.

Definition _build_reasoning_path (question : string)
    (vector_results : list Hit) (graph_context : Subgraph) (answer : string)
    : list ReasoningStep :=
  let reasoning := [] in
  let step_num := 1 in
  let reasoning := reasoning ++ [
    {| step_number := step_num;
       description := "Analyzed question to identify key concepts";
       entities_involved := [];
       relationships_used := [];
       evidence := question |} ] in
  let step_num := step_num + 1 in
  let '(reasoning, step_num) :=
    match vector_results with
    | top :: _ =>
        (reasoning ++ [
           {| step_number := step_num;
              description := "Retrieved " +:+ pretty (length vector_results)
                             +:+ " relevant text chunks via semantic search";
              entities_involved := [];
              relationships_used := [];
              evidence := "Top result score: " +:+ fmt_2f (hit_score top) |} ],
         step_num + 1)
    | [] => (reasoning, step_num)
    end in
  let entities := Neo4jClient.entities graph_context in
  let '(reasoning, step_num) :=
    match entities with
    | _ :: _ =>
        let entity_names := (λ e : Entity, default "" (e !! "name")) <$> take 5 entities in
        (reasoning ++ [
           {| step_number := step_num;
              description := "Traversed knowledge graph, found " +:+ pretty (length entities)
                             +:+ " related entities";
              entities_involved := entity_names;
              relationships_used := [];
              evidence := "Key entities: " +:+ join ", " entity_names |} ],
         step_num + 1)
    | [] => (reasoning, step_num)
    end in
  reasoning ++ [
    {| step_number := step_num;
       description := "Synthesized answer from document and graph context using Gemini";
       entities_involved := [];
       relationships_used := [];
       evidence := ellipsis 200 answer |} ].

Definition or_default (s fallback : string) : string :=
  if decide (s = "") then fallback else s.

Definition answer_prompt (question : string) (vector_results : list Hit)
    (graph_context : Subgraph) (mode : string) : string :=
  let vector_context :=
    foldl String.append ""
      (imap (λ i result,
               nl +:+ "[Source " +:+ pretty (i + 1)%nat +:+ "]: "
               +:+ str_prefix 500 (hit_text result))
            (take 5 vector_results)) in
  let graph_context_str :=
    foldl (λ acc (entity : Entity),
             acc +:+ nl +:+ "- Entity: " +:+ default "" (entity !! "name")
             +:+ " (Type: " +:+ default "" (entity !! "type") +:+ ")")
          "" (take 20 (entities graph_context)) in
  "You are a knowledge assistant using GraphRAG. Answer the question based on the provided context."
  +:+ nl +:+ nl +:+ "QUESTION: " +:+ question
  +:+ nl +:+ nl +:+ "MODE: " +:+ mode
  +:+ nl +:+ nl +:+ "DOCUMENT CONTEXT (from semantic search):" +:+ nl
  +:+ or_default vector_context "No relevant documents found."
  +:+ nl +:+ nl +:+ "KNOWLEDGE GRAPH CONTEXT (entities and relationships):" +:+ nl
  +:+ or_default graph_context_str "No relevant graph entities found."
  +:+ nl +:+ nl +:+ "Instructions:"
  +:+ nl +:+ "1. Synthesize information from both contexts"
  +:+ nl +:+ "2. Provide a clear, comprehensive answer"
  +:+ nl +:+ "3. If information is insufficient, acknowledge it"
  +:+ nl +:+ "4. Reference specific entities when possible"
  +:+ nl +:+ nl +:+ "Provide your answer:".

(** The request of the text-generation call. *)
Definition answer_request (question : string) (vector_results : list Hit)
    (graph_context : Subgraph) (mode : string) : ChatRequest :=
  {| chat_messages :=
       [("system", "You are a helpful knowledge assistant.");
        ("user", answer_prompt question vector_results graph_context mode)];
     chat_model := "llama-3.3-70b-versatile";
     chat_temperature := 0.3;
     chat_max_tokens := Some 1000;
     chat_json_object := false |}.

Definition _generate_answer (env : Collaborators) (question : string)
    (vector_results : list Hit) (graph_context : Subgraph) (mode : string)
    : M (string * list ReasoningStep) :=
  try_except
    (answer ← chat env (answer_request question vector_results graph_context mode);
     let reasoning_path :=
       _build_reasoning_path question vector_results graph_context answer in
     mret (answer, reasoning_path))
    (λ e, mret ("Unable to generate answer: " +:+ e, [])).

Definition _format_evidence (vector_results : list Hit) : list Evidence :=
  (λ result,
     {| ev_source_doc := default "Unknown" (hit_metadata result !! "source_doc");
        ev_chunk_text := str_prefix 500 (hit_text result);
        ev_relevance_score := hit_score result;
        ev_entities := [] |}) <$> vector_results.

Definition _format_graph_context (graph_context : Subgraph) : GraphData :=
  let nodes :=
    (λ entity : Entity,
       {| node_id := default "" (entity !! "id");
          node_name := default "" (entity !! "name");
          node_type := default "" (entity !! "type");
          node_source_doc := default "" (entity !! "source_doc") |})
    <$> entities graph_context in
  let edges :=
    omap (λ rel : option Entity,
            match rel with
            | Some r =>
                Some {| edge_id := default "" (r !! "id");
                        edge_source := default "" (r !! "source_entity_id");
                        edge_target := default "" (r !! "target_entity_id");
                        edge_relationship :=
                          default "RELATES_TO" (r !! "relationship_type") |}
            | None => None
            end)
         (relationships graph_context) in
  {| nodes := nodes; edges := edges;
     node_count := length nodes; edge_count := length edges |}.

Definition query (env : Collaborators) (question : string) (mode : string)
    (top_k : Z) (max_hops : Z) : M Response :=
  start_time ← time_time env;
  vector_results ←
    (if bool_decide (mode ∈ ["vector"; "hybrid"])
     then _vector_search env question top_k
     else mret []);
  question_entities ← _extract_question_entities env question;
  graph_context ←
    (if bool_decide (mode ∈ ["graph"; "hybrid"])
     then _graph_traversal env question_entities vector_results max_hops
     else mret empty_subgraph);
  '(answer, reasoning_path) ←
    _generate_answer env question vector_results graph_context mode;
  end_time ← time_time env;
  let processing_time := ((end_time - start_time) * 1000)%Q in
  mret {| question := question;
          answer := answer;
          reasoning_path := reasoning_path;
          evidence_list := _format_evidence vector_results;
          graph_context := _format_graph_context graph_context;
          mode_used := mode;
          processing_time_ms := processing_time |}.

End GraphRAGEngine.

(** ** [api/files.py] *)

Module Files.
Import Neo4jClient.

(** The score bundle of a candidate file. *)
Record Scores : Type := {
  semantic_score : Q;
  entity_score : Q;
  graph_score : Q
}.

Record Chunk : Type := {
  chunk_text : string;
  chunk_score : Q
}.

Record FileSearchRequest : Type := {
  req_query : string;
  req_top_k : Z;
  req_file_type : option string
}.

Record FileMatch : Type := {
  file_id : string;
  filename : string;
  file_type : string;
  upload_date : string;
  relevance_score : Q;
  matched_entities : list string;
  matched_relationships : list string;
  matched_chunks : list Chunk;
  explanation : string
}.

Record FileSearchResponse : Type := {
  resp_query : string;
  total_matches : nat;
  files : list FileMatch
}.

(** The three dicts filled while scores are aggregated. *)
Record Tables : Type := {
  file_scores : dict Scores;
  file_matched_chunks : dict (list Chunk);
  file_matched_entities : dict (gset string)
}.

Definition no_tables : Tables :=
  {| file_scores := []; file_matched_chunks := []; file_matched_entities := [] |}.

(** [d[k] = f(d[k])] for a key that is present. *)
Definition dict_alter {V : Type} (f : V → V) (k : string) (d : dict V) : dict V :=
  (λ kv : string * V, if decide (k = kv.1) then (kv.1, f kv.2) else kv) <$> d.

(** [if doc_id not in file_scores:] create the three entries. *)
Definition ensure_doc (doc_id : string) (t : Tables) : Tables :=
  if dict_has doc_id (file_scores t) then t
  else {| file_scores :=
            dict_set doc_id {| semantic_score := 0; entity_score := 0; graph_score := 0 |}
                     (file_scores t);
          file_matched_chunks := dict_set doc_id [] (file_matched_chunks t);
          file_matched_entities := dict_set doc_id ∅ (file_matched_entities t) |}.

Definition add_semantic (score : Q) (s : Scores) : Scores :=
  {| semantic_score := semantic_score s + score;
     entity_score := entity_score s; graph_score := graph_score s |}.

Definition add_entity (x : Q) (s : Scores) : Scores :=
  {| semantic_score := semantic_score s;
     entity_score := entity_score s + x; graph_score := graph_score s |}.

Definition add_graph (x : Q) (s : Scores) : Scores :=
  {| semantic_score := semantic_score s;
     entity_score := entity_score s; graph_score := graph_score s + x |}.

Definition on_scores (f : dict Scores → dict Scores) (t : Tables) : Tables :=
  {| file_scores := f (file_scores t);
     file_matched_chunks := file_matched_chunks t;
     file_matched_entities := file_matched_entities t |}.

Definition on_chunks (f : dict (list Chunk) → dict (list Chunk)) (t : Tables) : Tables :=
  {| file_scores := file_scores t;
     file_matched_chunks := f (file_matched_chunks t);
     file_matched_entities := file_matched_entities t |}.

Definition on_entities (f : dict (gset string) → dict (gset string)) (t : Tables) : Tables :=
  {| file_scores := file_scores t;
     file_matched_chunks := file_matched_chunks t;
     file_matched_entities := f (file_matched_entities t) |}.

(** The body of the loop over [semantic_results]. *)
Definition process_semantic (t : Tables) (result : Hit) : Tables :=
  let doc_id := default "" (hit_metadata result !! "doc_id") in
  if decide (doc_id = "") then t
  else
    let t := ensure_doc doc_id t in
    let score := hit_score result in
    let t := on_scores (dict_alter (add_semantic score) doc_id) t in
    let chunk_preview := ellipsis 200 (hit_text result) in
    on_chunks (dict_alter (λ l, l ++ [{| chunk_text := chunk_preview;
                                         chunk_score := score |}]) doc_id) t.

(** A string that is neither [None] nor empty. *)
Definition truthy (doc_id : option string) : option string :=
  match doc_id with
  | Some d => if decide (d = "") then None else Some d
  | None => None
  end.

(** [entity[key]] *)
Definition item (entity : Entity) (key : string) : M string :=
  match entity !! key with
  | Some v => mret v
  | None => raise ("'" +:+ key +:+ "'")
  end.

(** The body of the loop over the neighbours of a matched entity. *)
Definition process_neighbor (env : Collaborators) (t : Tables) (neighbor : Neighbor)
    : M Tables :=
  match nb_entity neighbor with
  | None => raise "'NoneType' object has no attribute 'get'"
  | Some neighbor_entity =>
      let neighbor_doc := default "" (neighbor_entity !! "source_doc") in
      neighbor_doc_id ← call (CallGetDocIdByFilename neighbor_doc)
                             (get_doc_id_by_filename env neighbor_doc);
      match truthy neighbor_doc_id with
      | Some neighbor_doc_id =>
          let t := ensure_doc neighbor_doc_id t in
          let distance := nb_distance neighbor in
          if decide (distance = 0) then raise "float division by zero"
          else
            let t := on_scores
                       (dict_alter (add_graph (1 / inject_Z distance)) neighbor_doc_id) t in
            mret (on_entities
                    (dict_alter (λ s, s ∪ {[ default "" (neighbor_entity !! "name") ]})
                                neighbor_doc_id) t)
      | None => mret t
      end
  end.

(** The body of the loop over [matching_entities]. *)
Definition process_entity (env : Collaborators) (t : Tables) (entity : Entity)
    : M Tables :=
  let source_doc := default "" (entity !! "source_doc") in
  doc_id ← call (CallGetDocIdByFilename source_doc)
                (get_doc_id_by_filename env source_doc);
  match truthy doc_id with
  | Some doc_id =>
      let t := ensure_doc doc_id t in
      let t := on_scores (dict_alter (add_entity 1) doc_id) t in
      name ← item entity "name";
      let t := on_entities (dict_alter (λ s, s ∪ {[ name ]}) doc_id) t in
      entity_id ← item entity "id";
      neighbors ← get_entity_neighbors env entity_id 2;
      for_each neighbors (process_neighbor env) t
  | None => mret t
  end.

(** Steps 1 to 4 of [search_files]: the scores of every candidate file. *)
Definition aggregate (env : Collaborators) (query : string) (top_k : Z) : M Tables :=
  semantic_results ← call (CallSearchByText query (top_k * 3))
                          (vs_search_by_text env query (top_k * 3));
  matching_entities ← call (CallSearchEntitiesByName query)
                           (search_entities_by_name env query);
  let t := foldl process_semantic no_tables semantic_results in
  for_each matching_entities (process_entity env) t.

(** The weighted combination of the three scores. *)
Definition final_score (scores : Scores) : Q :=
  semantic_score scores * 0.5 +
  entity_score scores * 0.3 +
  graph_score scores * 0.2.

(** The body of the first loop of step 5. *)
Definition score_one (acc : dict Q * Q) (entry : string * Scores) : dict Q * Q :=
  let '(file_raw_scores, max_score) := acc in
  let '(doc_id, scores) := entry in
  let final_score := final_score scores in
  (dict_set doc_id final_score file_raw_scores,
   if Qltb max_score final_score then final_score else max_score).

(** The first loop of step 5: [file_raw_scores] and [max_score]. *)
Definition raw_scores (file_scores : dict Scores) : dict Q * Q :=
  foldl score_one ([], 0%Q) file_scores.

Definition normalize (raw_score max_score : Q) : Q :=
  if Qltb 0 max_score then raw_score / max_score else 0.

(** [filename.split(".")[-1]] *)
Fixpoint last_segment (s : string) (seg : string) : string :=
  match s with
  | EmptyString => seg
  | String c s' =>
      if decide (c = "."%char) then last_segment s' ""
      else last_segment s' (seg +:+ String c "")
  end.

Definition file_type_of (filename : string) : string :=
  if str_in "." filename then lower (last_segment filename "") else "unknown".

Definition _generate_match_explanation (scores : Scores)
    (entities : list string) (relationships : list string) : string :=
  let parts : list string := [] in
  let parts :=
    if Qltb 0 (semantic_score scores)
    then parts ++ ["Content similarity: " +:+ fmt_2f (semantic_score scores)]
    else parts in
  let parts :=
    match entities with
    | _ :: _ =>
        let entity_str := join ", " (take 3 entities) in
        let entity_str :=
          if (3 <? length entities)%nat
          then entity_str +:+ " (+" +:+ pretty (length entities - 3)%nat +:+ " more)"
          else entity_str in
        parts ++ ["Matched entities: " +:+ entity_str]
    | [] => parts
    end in
  let parts :=
    match relationships with
    | _ :: _ => parts ++ ["Related through: " +:+ join ", " (take 3 relationships)]
    | [] => parts
    end in
  let parts :=
    if Qltb 0 (graph_score scores) then parts ++ ["Graph connections found"] else parts in
  match parts with
  | _ :: _ => join " | " parts
  | [] => "Matched based on content"
  end.

(** [list(set([r.get("relationship_type", "") for r in relationships]))[:5]] *)
Definition relationship_types_of (relationships : list Entity) : list string :=
  take 5 (elements (list_to_set (C := gset string)
            ((λ r : Entity, default "" (r !! "relationship_type")) <$> relationships))).

(** The body of the second loop of step 5: one candidate file is normalised,
    looked up, filtered by type and by relevance, and appended. *)
Definition rank_one (env : Collaborators) (t : Tables) (file_raw_scores : dict Q)
    (max_score : Q) (file_type_filter : option string)
    (ranked_files : list FileMatch) (entry : string * Scores) : M (list FileMatch) :=
  let '(doc_id, scores) := entry in
  match dict_get doc_id file_raw_scores with
  | None => raise ("'" +:+ doc_id +:+ "'")
  | Some raw_score =>
      let normalized_score := normalize raw_score max_score in
      doc_info ← call (CallGetDocument doc_id) (get_document env doc_id);
      match doc_info with
      | None => mret ranked_files
      | Some doc_info =>
          if decide (doc_info = ∅) then mret ranked_files
          else
            let filename := default "Unknown" (doc_info !! "filename") in
            let file_type := file_type_of filename in
            if match truthy file_type_filter with
               | Some f => bool_decide (file_type ≠ lower f)
               | None => false
               end
            then mret ranked_files
            else
              relationships ← call (CallGetRelationshipsByDoc doc_id)
                                   (get_relationships_by_doc env doc_id);
              let relationship_types := relationship_types_of relationships in
              if Qltb normalized_score 0.2 then mret ranked_files
              else
                let entity_names :=
                  elements (default ∅ (dict_get doc_id (file_matched_entities t))) in
                mret (ranked_files ++ [
                  {| file_id := doc_id;
                     filename := filename;
                     file_type := file_type;
                     upload_date := default "" (doc_info !! "upload_date");
                     relevance_score := round4 normalized_score;
                     matched_entities := take 10 entity_names;
                     matched_relationships := relationship_types;
                     matched_chunks :=
                       take 3 (default [] (dict_get doc_id (file_matched_chunks t)));
                     explanation :=
                       _generate_match_explanation scores entity_names
                                                   relationship_types |} ])
      end
  end.

(** [ranked_files.sort(key=lambda x: x.relevance_score, reverse=True)]:
    descending, files of equal score keep their order. *)
Fixpoint insert_desc (x : FileMatch) (l : list FileMatch) : list FileMatch :=
  match l with
  | [] => [x]
  | y :: l' =>
      if Qltb (relevance_score x) (relevance_score y)
      then y :: insert_desc x l'
      else x :: y :: l'
  end.

Definition sort_desc (l : list FileMatch) : list FileMatch :=
  foldr insert_desc [] l.

(** Step 5 of [search_files]. *)
Definition rank_files (env : Collaborators) (t : Tables)
    (file_type_filter : option string) (top_k : Z) : M (list FileMatch) :=
  let '(file_raw_scores, max_score) := raw_scores (file_scores t) in
  ranked_files ← for_each (file_scores t)
                   (rank_one env t file_raw_scores max_score file_type_filter) [];
  let ranked_files := sort_desc ranked_files in
  mret (slice_to top_k ranked_files).

(** [raise HTTPException(status_code=500, detail=str(e))] *)
Definition http_500 {A : Type} (detail : string) : M A :=
  raise ("500: " +:+ detail).

Definition search_files (env : Collaborators) (request : FileSearchRequest)
    : M FileSearchResponse :=
  try_except
    (let query := req_query request in
     let top_k := req_top_k request in
     let file_type_filter := req_file_type request in
     t ← aggregate env query top_k;
     ranked_files ← rank_files env t file_type_filter top_k;
     mret {| resp_query := query;
             total_matches := length ranked_files;
             files := ranked_files |})
    http_500.

End Files.

(** * Properties of the engine *)

(** ** The reasoning path *)

Section ReasoningPath.
Import Neo4jClient GraphRAGEngine.

(** The number of steps: the two fixed ones and one per non-empty context. *)
Definition expected_steps (vector_results : list Hit) (graph_context : Subgraph) : nat :=
  (2 + (if vector_results is [] then 0 else 1)
     + (if entities graph_context is [] then 0 else 1))%nat.

Lemma build_reasoning_path_length question vector_results graph_context answer :
  length (_build_reasoning_path question vector_results graph_context answer)
  = expected_steps vector_results graph_context.
Proof.
  unfold _build_reasoning_path, expected_steps.
  destruct vector_results, (entities graph_context); reflexivity.
Qed.

(** C8. Whatever optional steps are present, the step numbers of the
    reasoning path are exactly 1, 2, ..., N; the path starts with the
    question-analysis step, numbered 1, and ends with the answer-synthesis
    step, numbered N. *)
Theorem reasoning_steps_contiguous question vector_results graph_context answer :
  let path := _build_reasoning_path question vector_results graph_context answer in
  step_number <$> path = Z.of_nat <$> seq 1 (length path)
  ∧ (∃ first rest,
       path = first :: rest
       ∧ step_number first = 1
       ∧ description first = "Analyzed question to identify key concepts"
       ∧ evidence first = question)
  ∧ (∃ init final,
       path = init ++ [final]
       ∧ step_number final = Z.of_nat (length path)
       ∧ description final
         = "Synthesized answer from document and graph context using Gemini"
       ∧ evidence final = ellipsis 200 answer).
Proof.
  unfold _build_reasoning_path.
  destruct vector_results as [|top rest_hits],
           (entities graph_context) as [|e rest_entities];
    (split; [reflexivity | split];
     [eexists _, _ | eexists _, _]; repeat split; reflexivity).
Qed.

End ReasoningPath.

(** ** Running engine code *)

Section Running.

Context {A B : Type}.

Lemma run_bind (m : M A) (f : A → M B) (w : World) :
  (m ≫= f) w = match m w with
               | (Ok a, w') => f a w'
               | (Raise e, w') => (Raise e, w')
               end.
Proof. reflexivity. Qed.

Lemma run_bind_ok (m : M A) (f : A → M B) (w w' : World) (a : A) :
  m w = (Ok a, w') → (m ≫= f) w = f a w'.
Proof. intros H. rewrite run_bind, H. reflexivity. Qed.

Lemma run_bind_raise (m : M A) (f : A → M B) (w w' : World) (e : string) :
  m w = (Raise e, w') → (m ≫= f) w = (Raise e, w').
Proof. intros H. rewrite run_bind, H. reflexivity. Qed.

(** A bind that returns has run both of its parts. *)
Lemma run_bind_inv (m : M A) (f : A → M B) (w w' : World) (b : B) :
  (m ≫= f) w = (Ok b, w') → ∃ a w1, m w = (Ok a, w1) ∧ f a w1 = (Ok b, w').
Proof.
  rewrite run_bind. destruct (m w) as [[a|e] w1]; [eauto | discriminate].
Qed.

End Running.

(** Concrete collaborators and graphs used to exercise the engine. *)
Module Scenario.

(** Collaborators that answer every call with nothing: an empty index, an
    empty graph and no language model. *)
Definition quiet : Collaborators := {|
  vs_search_by_text := λ _ _, Ok [];
  groq_client := None;
  json_entities := λ _, Ok [];
  run_all_entities := λ _, Ok [];
  run_multi_hop := λ _ _, Ok [];
  run_neighbors := λ _ _, Ok [];
  search_entities_by_name := λ _, Ok [];
  get_doc_id_by_filename := λ _, Ok None;
  get_document := λ _, Ok None;
  get_relationships_by_doc := λ _, Ok [];
  clock := λ n, inject_Z (Z.of_nat n)
|}.

Definition with_graph (all_entities : result (list RawNode))
    (multi_hop : Z → list (option string) → result (list TraversalRecord))
    (env : Collaborators) : Collaborators := {|
  vs_search_by_text := vs_search_by_text env;
  groq_client := groq_client env;
  json_entities := json_entities env;
  run_all_entities := λ _, all_entities;
  run_multi_hop := multi_hop;
  run_neighbors := run_neighbors env;
  search_entities_by_name := search_entities_by_name env;
  get_doc_id_by_filename := get_doc_id_by_filename env;
  get_document := get_document env;
  get_relationships_by_doc := get_relationships_by_doc env;
  clock := clock env
|}.

Definition node (id name : string) : RawNode :=
  {[ "id" := RStr id; "name" := RStr name ]}.

Definition alice : RawNode := node "e1" "Alice".
Definition bob : RawNode := node "e2" "Bob".

(** A second record that carries Alice's id under another name. *)
Definition alicia : RawNode := node "e1" "Alicia".

Definition knows : RawNode :=
  {[ "id" := RStr "r1"; "relationship" := RStr "KNOWS" ]}.

(** Alice knows Bob; the traversal from Alice finds Bob over [knows]. *)
Definition social : Collaborators :=
  with_graph (Ok [alice; bob])
    (λ _ _, Ok [ {| rec_start := alice;
                    rec_connected_entities := [bob];
                    rec_all_relationships := [[knows]] |} ])
    quiet.

(** A graph that answers with two records of the same id. *)
Definition twins : Collaborators :=
  with_graph (Ok [alice; alicia])
    (λ _ _, Ok [ {| rec_start := alice;
                    rec_connected_entities := [alicia; alice];
                    rec_all_relationships := [] |} ])
    quiet.

(** A graph database that cannot be reached. *)
Definition graph_down : Collaborators :=
  with_graph (Raise "ServiceUnavailable") (λ _ _, Raise "ServiceUnavailable") quiet.

(** A graph whose entities can be listed but not traversed. *)
Definition traversal_down : Collaborators :=
  with_graph (Ok [alice; bob]) (λ _ _, Raise "ServiceUnavailable") quiet.

Definition with_llm (client : ChatRequest → result string) (env : Collaborators)
    : Collaborators := {|
  vs_search_by_text := vs_search_by_text env;
  groq_client := Some client;
  json_entities := json_entities env;
  run_all_entities := run_all_entities env;
  run_multi_hop := run_multi_hop env;
  run_neighbors := run_neighbors env;
  search_entities_by_name := search_entities_by_name env;
  get_doc_id_by_filename := get_doc_id_by_filename env;
  get_document := get_document env;
  get_relationships_by_doc := get_relationships_by_doc env;
  clock := clock env
|}.

(** The social graph with a language model that refuses every request. *)
Definition llm_down : Collaborators :=
  with_llm (λ _, Raise "rate limit exceeded") social.

(** A library of three files: a report, notes and an old draft, found by
    the vector store with decreasing similarity. *)
Definition chunk_hit (doc_id text : string) (score : Q) : Hit :=
  {| hit_id := doc_id +:+ "_chunk_0";
     hit_text := text;
     hit_metadata := {[ "doc_id" := doc_id ]};
     hit_distance := 1 - score;
     hit_score := score |}.

Definition document (doc_id filename : string) : Entity :=
  {[ "id" := doc_id; "filename" := filename; "upload_date" := "2024-05-01" ]}.

Definition library : Collaborators := {|
  vs_search_by_text := λ _ _,
    Ok [chunk_hit "d1" "Annual report of the year" 0.9;
        chunk_hit "d2" "Notes of the annual meeting" 0.45;
        chunk_hit "d3" "Old draft" 0.09];
  groq_client := None;
  json_entities := λ _, Ok [];
  run_all_entities := λ _, Ok [];
  run_multi_hop := λ _ _, Ok [];
  run_neighbors := λ _ _, Ok [];
  search_entities_by_name := λ _, Ok [];
  get_doc_id_by_filename := λ _, Ok None;
  get_document := λ doc_id,
    Ok (if decide (doc_id = "d1") then Some (document "d1" "report.pdf")
        else if decide (doc_id = "d2") then Some (document "d2" "notes.txt")
        else if decide (doc_id = "d3") then Some (document "d3" "draft.docx")
        else None);
  get_relationships_by_doc := λ _, Ok [];
  clock := λ n, inject_Z (Z.of_nat n)
|}.

Definition search_for (file_type : option string) : Files.FileSearchRequest :=
  {| Files.req_query := "annual"; Files.req_top_k := 10;
     Files.req_file_type := file_type |}.

(** The two candidates of the ranking example: A with a semantic score of
    2, B with one matched entity and a graph score of 0.5. *)
Definition two_candidates : dict Files.Scores :=
  [("A", {| Files.semantic_score := 2; Files.entity_score := 0;
            Files.graph_score := 0 |});
   ("B", {| Files.semantic_score := 0; Files.entity_score := 1;
            Files.graph_score := 0.5 |})].

End Scenario.

(** ** Multi-hop traversal *)

Section Traversal.
Import Neo4jClient.

(** The nodes of a row, and of all rows, of the multi-hop query. *)
Definition record_nodes (record : TraversalRecord) : list RawNode :=
  rec_start record :: rec_connected_entities record.

Definition returned_entities (result : list TraversalRecord) : list Entity :=
  omap _sanitize_record (result ≫= record_nodes).

(** The relationships on the paths the query discovered. *)
Definition discovered_relationships (result : list TraversalRecord) : list RawNode :=
  result ≫= (λ record, concat (rec_all_relationships record)).

Definition entity_id (e : Entity) : option string := e !! "id".

Lemma elem_of_add_node (S : gset Entity) (node : RawNode) (e : Entity) :
  e ∈ add_node S node ↔ e ∈ S ∨ _sanitize_record node = Some e.
Proof.
  unfold add_node, _sanitize_record.
  destruct (decide (node = ∅)) as [->|Hne].
  - split; [auto | intros [?|?]; [done | discriminate]].
  - rewrite elem_of_union, elem_of_singleton.
    split; (intros [?|?]; [by left | right]); congruence.
Qed.

Lemma elem_of_add_nodes (nodes : list RawNode) (S : gset Entity) (e : Entity) :
  e ∈ foldl add_node S nodes ↔ e ∈ S ∨ e ∈ omap _sanitize_record nodes.
Proof.
  revert S. induction nodes as [|node nodes IH]; intros S; simpl.
  - rewrite elem_of_nil. tauto.
  - rewrite IH, elem_of_add_node.
    destruct (_sanitize_record node) as [e'|] eqn:Hs.
    + rewrite elem_of_cons. split; [intros [[?|?]|?] | intros [?|[?|?]]]; eauto.
      * right. left. congruence.
      * left. right. congruence.
    + split; [intros [[?|?]|?] | intros [?|?]]; eauto. discriminate.
Qed.

Lemma elem_of_add_records (result : list TraversalRecord) (S : gset Entity) (e : Entity) :
  e ∈ foldl add_record S result ↔ e ∈ S ∨ e ∈ returned_entities result.
Proof.
  unfold returned_entities.
  revert S. induction result as [|record result IH]; intros S.
  - simpl. rewrite elem_of_nil. tauto.
  - cbn [foldl]. rewrite IH, bind_cons, omap_app, elem_of_app.
    unfold add_record, record_nodes.
    rewrite elem_of_add_nodes, elem_of_add_node. cbn [omap list_omap].
    destruct (_sanitize_record (rec_start record)) as [e'|] eqn:Hs;
      rewrite ?elem_of_cons; split; intros H; destruct_or?; eauto;
      try discriminate.
    + right. left. left. congruence.
    + left. left. right. congruence.
Qed.

(** What a traversal does: one call, then the fold over the rows. *)
Lemma run_multi_hop_traversal env start_entities max_hops w :
  multi_hop_traversal env start_entities max_hops w =
  let w' := {| calls := calls w ++ [CallMultiHop start_entities max_hops];
               ticks := ticks w |} in
  match run_multi_hop env max_hops start_entities with
  | Ok result =>
      (Ok {| entities := elements (foldl add_record ∅ result); relationships := [] |}, w')
  | Raise e => (Raise e, w')
  end.
Proof.
  unfold multi_hop_traversal. rewrite run_bind. unfold call.
  destruct (run_multi_hop env max_hops start_entities); reflexivity.
Qed.

(** Records that share an id are the same record. *)
Definition id_determines_record (l : list Entity) : Prop :=
  ∀ e1 e2, e1 ∈ l → e2 ∈ l → entity_id e1 = entity_id e2 → e1 = e2.

(** Whatever the graph answers, the traversal returns no relationship. *)
Lemma traversal_relationships_empty env start_entities max_hops w sg w' :
  multi_hop_traversal env start_entities max_hops w = (Ok sg, w') →
  relationships sg = [].
Proof.
  rewrite run_multi_hop_traversal. cbv zeta.
  destruct (run_multi_hop env max_hops start_entities); [|discriminate].
  intros [= <- _]. reflexivity.
Qed.

(** C4. On the graph where Alice knows Bob, the traversal from Alice
    discovers the relationship [knows] on a path of one hop, and the
    returned [relationships] field is empty all the same. *)
Theorem traversal_drops_discovered_relationships :
  ∃ result sg w',
    run_multi_hop Scenario.social 1 [Some "e1"] = Ok result
    ∧ Scenario.knows ∈ discovered_relationships result
    ∧ multi_hop_traversal Scenario.social [Some "e1"] 1 world0 = (Ok sg, w')
    ∧ relationships sg = [].
Proof.
  eexists _, _, _. split; [reflexivity|]. split; [|split].
  - cbn. left.
  - rewrite run_multi_hop_traversal. reflexivity.
  - reflexivity.
Qed.

(** C5, as stated, fails: a graph that answers with two records of the same
    id, differing in their name, gets both back. *)
Lemma traversal_entities_may_share_id :
  ∃ sg w',
    multi_hop_traversal Scenario.twins [Some "e1"] 2 world0 = (Ok sg, w')
    ∧ ¬ NoDup (entity_id <$> entities sg).
Proof.
  eexists _, _. split; [rewrite run_multi_hop_traversal; reflexivity|].
  apply (bool_decide_unpack _). vm_compute. reflexivity.
Qed.

(** C5 (amended). The entities a traversal returns are the records the
    graph answered with, made plain, each exactly once: no two returned
    entities are equal as records, however many paths reach them. When
    records that share an id are the same record, no id occurs twice. *)
Theorem traversal_entities_distinct_records env start_entities max_hops w sg w' :
  multi_hop_traversal env start_entities max_hops w = (Ok sg, w') →
  ∃ result,
    run_multi_hop env max_hops start_entities = Ok result
    ∧ NoDup (entities sg)
    ∧ (∀ e, e ∈ entities sg ↔ e ∈ returned_entities result)
    ∧ (id_determines_record (returned_entities result) →
       NoDup (entity_id <$> entities sg)).
Proof.
  rewrite run_multi_hop_traversal. cbv zeta.
  destruct (run_multi_hop env max_hops start_entities) as [result|]; [|discriminate].
  intros [= <- _]. exists result. cbn [entities].
  assert (Hin : ∀ e, e ∈ elements (foldl add_record ∅ result)
                     ↔ e ∈ returned_entities result).
  { intros e. rewrite elem_of_elements, elem_of_add_records, elem_of_empty. tauto. }
  split; [reflexivity|]. split; [apply NoDup_elements|]. split; [exact Hin|].
  intros Hid. apply NoDup_fmap_2_strong; [|apply NoDup_elements].
  intros e1 e2 H1 H2. apply Hid; by apply Hin.
Qed.

Lemma traversal_entities_distinct_records_witness :
  ∃ sg w',
    multi_hop_traversal Scenario.social [Some "e1"] 1 world0 = (Ok sg, w')
    ∧ NoDup (entities sg).
Proof.
  eexists _, _. split; [rewrite run_multi_hop_traversal; reflexivity|].
  destruct (traversal_entities_distinct_records Scenario.social [Some "e1"] 1 world0
              _ _ (run_multi_hop_traversal _ _ _ _)) as (result & _ & Hnd & _).
  exact Hnd.
Defined.

End Traversal.

(** ** The call log *)

Section CallLog.

(** The world after one more call. *)
Definition logged (c : Call) (w : World) : World :=
  {| calls := calls w ++ [c]; ticks := ticks w |}.

(** [m] only appends to the call log, and only calls that satisfy [ok]. *)
Definition appends {A : Type} (ok : Call → Prop) (m : M A) : Prop :=
  ∀ w, ∃ new, calls (m w).2 = calls w ++ new ∧ Forall ok new.

Lemma appends_nothing {T : Type} (ok : Call → Prop) (m : M T) :
  (∀ w, calls (m w).2 = calls w) → appends ok m.
Proof.
  intros H w. exists []. rewrite H, app_nil_r. split; [reflexivity | constructor].
Qed.

Context {A B : Type} (ok : Call → Prop).

Lemma appends_ret (a : A) : appends ok (mret a).
Proof. by apply appends_nothing. Qed.

Lemma appends_raise (e : string) : appends ok (raise e : M A).
Proof. by apply appends_nothing. Qed.

Lemma appends_lift_result (r : result A) : appends ok (lift_result r).
Proof. by apply appends_nothing. Qed.

Lemma appends_time env : appends ok (time_time env).
Proof. by apply appends_nothing. Qed.

Lemma appends_call (c : Call) (answer : result A) : ok c → appends ok (call c answer).
Proof.
  intros Hc w. exists [c]. split; [reflexivity | by repeat constructor].
Qed.

Lemma appends_bind (m : M A) (f : A → M B) :
  appends ok m → (∀ a, appends ok (f a)) → appends ok (m ≫= f).
Proof.
  intros Hm Hf w. rewrite run_bind.
  destruct (Hm w) as (new1 & E1 & F1).
  destruct (m w) as [[a|e] w1]; simpl in E1.
  - destruct (Hf a w1) as (new2 & E2 & F2).
    exists (new1 ++ new2). rewrite E2, E1, app_assoc.
    split; [reflexivity | by apply Forall_app].
  - exists new1. by split.
Qed.

Lemma appends_try (body : M A) (handler : string → M A) :
  appends ok body → (∀ e, appends ok (handler e)) → appends ok (try_except body handler).
Proof.
  intros Hm Hh w. unfold try_except.
  destruct (Hm w) as (new1 & E1 & F1).
  destruct (body w) as [[a|e] w1]; simpl in E1.
  - exists new1. by split.
  - destruct (Hh e w1) as (new2 & E2 & F2).
    exists (new1 ++ new2). rewrite E2, E1, app_assoc.
    split; [reflexivity | by apply Forall_app].
Qed.

End CallLog.

Lemma appends_for_each {A S : Type} (ok : Call → Prop) (l : list A)
    (body : S → A → M S) (acc : S) :
  (∀ s x, appends ok (body s x)) → appends ok (for_each l body acc).
Proof.
  intros Hbody. revert acc. induction l as [|x l IH]; intros acc; simpl.
  - apply appends_ret.
  - apply appends_bind; [apply Hbody | apply IH].
Qed.

Create HintDb call_log.
#[export] Hint Resolve appends_ret appends_raise appends_lift_result appends_time
  : call_log.

(** Splits a goal on engine code along its binds and handlers. *)
Ltac step_log :=
  repeat first
    [ apply appends_bind; [|intros ?]
    | apply appends_try; [|intros ?]
    | apply appends_call; first [exact I | reflexivity]
    | progress auto with call_log ].

(** ** The query engine *)

Section Engine.
Import Neo4jClient GraphRAGEngine.

Variable env : Collaborators.

(** The stages that catch their exceptions always return. *)
Lemma vector_search_returns question top_k w :
  ∃ vector_results,
    _vector_search env question top_k w
    = (Ok vector_results, logged (CallSearchByText question top_k) w).
Proof.
  unfold _vector_search, try_except. rewrite run_bind. unfold call.
  destruct (vs_search_by_text env question top_k); eauto.
Qed.

Lemma extract_question_entities_returns question w :
  ∃ question_entities w',
    _extract_question_entities env question w = (Ok question_entities, w').
Proof.
  unfold _extract_question_entities, try_except. rewrite run_bind.
  unfold chat, raise, call, lift_result.
  destruct (groq_client env) as [client|]; [|eauto].
  destruct (client _); [|eauto].
  destruct (json_entities env _); eauto.
Qed.

(** The graph stage: one lookup of the entities, then at most one
    traversal, from the first ten matching ids. *)
Lemma run_graph_traversal question_entities vector_results max_hops w :
  _graph_traversal env question_entities vector_results max_hops w =
  let w1 := logged (CallGetAllEntities 500) w in
  match run_all_entities env 500 with
  | Raise e => (Raise e, w1)
  | Ok raw =>
      match find_matching_ids (entities_to_explore question_entities vector_results)
                              (_sanitize_record <$> raw) with
      | Raise e => (Raise e, w1)
      | Ok [] => (Ok empty_subgraph, w1)
      | Ok (id :: ids) => multi_hop_traversal env (take 10 (id :: ids)) max_hops w1
      end
  end.
Proof.
  unfold _graph_traversal, get_all_entities. rewrite !run_bind. unfold call.
  destruct (run_all_entities env 500) as [raw|e]; [|reflexivity].
  cbn. rewrite run_bind. unfold lift_result.
  destruct (find_matching_ids _ _) as [[|id ids]|e]; reflexivity.
Qed.

(** The synthesis stage returns whether the text generation does or not. *)
Lemma run_generate_answer question vector_results graph_context mode w :
  _generate_answer env question vector_results graph_context mode w =
  match chat env (answer_request question vector_results graph_context mode) w with
  | (Ok answer, w') =>
      (Ok (answer,
           _build_reasoning_path question vector_results graph_context answer), w')
  | (Raise e, w') => (Ok ("Unable to generate answer: " +:+ e, []), w')
  end.
Proof.
  unfold _generate_answer, try_except. rewrite run_bind.
  destruct (chat env _ w) as [[answer|e] w']; reflexivity.
Qed.

(** Stages 1 to 3 of [query]: the clock reading at entry, the similarity
    hits and the traversed subgraph. *)
Definition retrieve (question mode : string) (top_k max_hops : Z)
    : M (Q * list Hit * Subgraph) :=
  start_time ← time_time env;
  vector_results ←
    (if bool_decide (mode ∈ ["vector"; "hybrid"])
     then _vector_search env question top_k
     else mret []);
  question_entities ← _extract_question_entities env question;
  graph_context ←
    (if bool_decide (mode ∈ ["graph"; "hybrid"])
     then _graph_traversal env question_entities vector_results max_hops
     else mret empty_subgraph);
  mret (start_time, vector_results, graph_context).

(** Stages 4 and 5 of [query]. *)
Definition respond (question mode : string) (start_time : Q)
    (vector_results : list Hit) (graph_context : Subgraph) : M Response :=
  '(answer, reasoning_path) ←
    _generate_answer env question vector_results graph_context mode;
  end_time ← time_time env;
  mret {| question := question;
          answer := answer;
          reasoning_path := reasoning_path;
          evidence_list := _format_evidence vector_results;
          graph_context := _format_graph_context graph_context;
          mode_used := mode;
          processing_time_ms := (end_time - start_time) * 1000 |}.

Lemma run_query question mode top_k max_hops w :
  query env question mode top_k max_hops w =
  match retrieve question mode top_k max_hops w with
  | (Ok (start_time, vector_results, graph_context), w1) =>
      respond question mode start_time vector_results graph_context w1
  | (Raise e, w1) => (Raise e, w1)
  end.
Proof.
  unfold query, retrieve. rewrite !run_bind.
  destruct (time_time env w) as [[start_time|e] w1]; [|reflexivity].
  rewrite !run_bind.
  destruct ((if bool_decide (mode ∈ ["vector"; "hybrid"])
             then _vector_search env question top_k else mret []) w1)
    as [[vector_results|e] w2]; [|reflexivity].
  rewrite !run_bind.
  destruct (_extract_question_entities env question w2)
    as [[question_entities|e] w3]; [|reflexivity].
  rewrite !run_bind.
  destruct ((if bool_decide (mode ∈ ["graph"; "hybrid"])
             then _graph_traversal env question_entities vector_results max_hops
             else mret empty_subgraph) w3)
    as [[graph_context|e] w4]; reflexivity.
Qed.

End Engine.

Section QueryProperties.
Import Neo4jClient GraphRAGEngine.

Variable env : Collaborators.

(** A call that is no traversal, or a traversal of exactly [max_hops] hops. *)
Definition hops_as_given (max_hops : Z) (c : Call) : Prop :=
  match c with
  | CallMultiHop _ h => h = max_hops
  | _ => True
  end.

Lemma hops_requested_as_given max_hops log :
  Forall (hops_as_given max_hops) log →
  Forall (λ h, h = max_hops) (hops_requested log).
Proof.
  unfold hops_requested.
  induction 1 as [|c log Hc _ IH]; simpl; [constructor|].
  destruct c; simpl in *; auto.
Qed.

Lemma hops_requested_app log1 log2 :
  hops_requested (log1 ++ log2) = hops_requested log1 ++ hops_requested log2.
Proof. apply omap_app. Qed.

Lemma graph_call_count_app log1 log2 :
  graph_call_count (log1 ++ log2)
  = (graph_call_count log1 + graph_call_count log2)%nat.
Proof. unfold graph_call_count. by rewrite filter_app, length_app. Qed.

Lemma query_appends max_hops question mode top_k :
  appends (hops_as_given max_hops) (query env question mode top_k max_hops).
Proof.
  assert (Hchat : ∀ request, appends (hops_as_given max_hops) (chat env request)).
  { intros request. unfold chat. destruct (groq_client env); step_log. }
  unfold query. step_log.
  - case_bool_decide; step_log.
  - case_bool_decide; [|step_log].
    unfold _graph_traversal, get_all_entities. step_log.
    match goal with |- appends _ (match ?ids with _ => _ end) => destruct ids end;
      [step_log|].
    unfold multi_hop_traversal. step_log.
  - match goal with p : (string * list ReasoningStep)%type |- _ => destruct p end.
    step_log.
Qed.

(** C3, as stated, fails: a caller who asks for seven hops gets a traversal
    of seven hops. *)
Lemma max_hops_above_six_is_used :
  ∃ h,
    h ∈ hops_requested
          (calls (query Scenario.social "Who is Alice?" "graph" 5 7 world0).2)
    ∧ 6 < h.
Proof. exists 7. split; [vm_compute; left | lia]. Qed.

(** C3 (amended). Every multi-hop traversal a query asks of the graph
    provider is asked with exactly the caller's [max_hops] as hop limit:
    the value is passed on unchanged. *)
Theorem hop_limit_is_caller_max_hops question mode top_k max_hops w :
  ∃ new,
    calls (query env question mode top_k max_hops w).2 = calls w ++ new
    ∧ Forall (λ h, h = max_hops) (hops_requested new).
Proof.
  destruct (query_appends max_hops question mode top_k w) as (new & E & F).
  exists new. split; [exact E | by apply hops_requested_as_given].
Qed.

(** C6, as stated, fails: with no seed entity at all the stage returns the
    empty subgraph, and has called the graph provider once. *)
Lemma empty_seeds_still_call_graph_provider :
  ∃ w',
    _graph_traversal Scenario.quiet [] [] 2 world0 = (Ok empty_subgraph, w')
    ∧ graph_call_count (calls w') = 1%nat
    ∧ graph_call_count (calls w') ≠ 0%nat.
Proof. eexists. split; [reflexivity | split; [reflexivity | discriminate]]. Qed.

(** C6 (amended). When no entity of the graph matches, so that the seed set
    of the traversal is empty, the stage returns the empty subgraph and
    asks for no traversal; the one call the graph provider receives is the
    lookup of the entities that the seeds are chosen from. *)
Theorem empty_seeds_skip_traversal question_entities vector_results max_hops w raw :
  run_all_entities env 500 = Ok raw →
  find_matching_ids (entities_to_explore question_entities vector_results)
                    (_sanitize_record <$> raw) = Ok [] →
  ∃ w',
    _graph_traversal env question_entities vector_results max_hops w
    = (Ok empty_subgraph, w')
    ∧ calls w' = calls w ++ [CallGetAllEntities 500]
    ∧ hops_requested (calls w') = hops_requested (calls w)
    ∧ graph_call_count (calls w') = S (graph_call_count (calls w)).
Proof.
  intros Hall Hseeds. rewrite run_graph_traversal. cbv zeta.
  rewrite Hall, Hseeds. eexists. split; [reflexivity|]. cbn [logged calls].
  split; [reflexivity|].
  split; [rewrite hops_requested_app; apply app_nil_r|].
  rewrite graph_call_count_app.
  change (graph_call_count [CallGetAllEntities 500]) with 1%nat. lia.
Qed.


(** A failure of the entity lookup leaves [query] through every stage. *)
Lemma graph_lookup_failure_propagates question mode top_k max_hops w e :
  mode ∈ ["graph"; "hybrid"] →
  run_all_entities env 500 = Raise e →
  ∃ w', query env question mode top_k max_hops w = (Raise e, w').
Proof.
  intros Hmode Hdown. rewrite run_query. unfold retrieve.
  rewrite run_bind. cbn [time_time].
  set (w0 := {| calls := calls w; ticks := S (ticks w) |}).
  assert (Hvs : ∃ vector_results w1,
            (if bool_decide (mode ∈ ["vector"; "hybrid"])
             then _vector_search env question top_k else mret []) w0
            = (Ok vector_results, w1)).
  { case_bool_decide; [|by eexists _, _].
    destruct (vector_search_returns env question top_k w0); eauto. }
  destruct Hvs as (vector_results & w1 & Hvs).
  rewrite (run_bind_ok _ _ _ _ _ Hvs).
  destruct (extract_question_entities_returns env question w1)
    as (question_entities & w2 & Hqe).
  rewrite (run_bind_ok _ _ _ _ _ Hqe).
  rewrite bool_decide_eq_true_2 by exact Hmode.
  rewrite run_bind, run_graph_traversal. cbv zeta. rewrite Hdown. eauto.
Qed.

(** C2. With a graph database that cannot be reached, a hybrid query does
    not degrade to an empty subgraph: the exception of the provider leaves
    [query], whether it is raised by the lookup of the entities or by the
    traversal itself. *)
Theorem graph_failure_aborts_query :
  (∃ w', query Scenario.graph_down "Who is Alice?" "hybrid" 5 2 world0
         = (Raise "ServiceUnavailable", w'))
  ∧ (∃ w', query Scenario.traversal_down "Who is Alice?" "hybrid" 5 2 world0
           = (Raise "ServiceUnavailable", w')).
Proof. split; eexists; vm_compute; reflexivity. Qed.

(** C9. When the stages before it have returned and the text-generation
    call raises, [query] returns a response of the usual shape: its answer
    is the failure message, its reasoning path is empty, and the evidence
    and graph context are those of the retrieved contexts. *)
Theorem synthesis_failure_degrades question mode top_k max_hops w
    start_time vector_results graph_context w1 e w2 :
  retrieve env question mode top_k max_hops w
  = (Ok (start_time, vector_results, graph_context), w1) →
  chat env (answer_request question vector_results graph_context mode) w1
  = (Raise e, w2) →
  ∃ resp w',
    query env question mode top_k max_hops w = (Ok resp, w')
    ∧ answer resp = "Unable to generate answer: " +:+ e
    ∧ reasoning_path resp = []
    ∧ GraphRAGEngine.question resp = question
    ∧ mode_used resp = mode
    ∧ evidence_list resp = _format_evidence vector_results
    ∧ GraphRAGEngine.graph_context resp = _format_graph_context graph_context.
Proof.
  intros Hretrieve Hchat. rewrite run_query, Hretrieve. unfold respond.
  rewrite run_bind, run_generate_answer, Hchat. cbn.
  eexists _, _. repeat split; reflexivity.
Qed.

End QueryProperties.

Section QueryWitnesses.
Import Neo4jClient GraphRAGEngine.

Lemma empty_seeds_skip_traversal_witness :
  ∃ w',
    _graph_traversal Scenario.social [] [] 2 world0 = (Ok empty_subgraph, w')
    ∧ calls w' = [CallGetAllEntities 500].
Proof.
  destruct (empty_seeds_skip_traversal Scenario.social [] [] 2 world0
              [Scenario.alice; Scenario.bob] eq_refl eq_refl)
    as (w' & Hrun & Hcalls & _).
  exists w'. split; [exact Hrun | exact Hcalls].
Defined.

Lemma synthesis_failure_degrades_witness :
  ∃ resp w',
    query Scenario.llm_down "Who is Alice?" "hybrid" 5 2 world0 = (Ok resp, w')
    ∧ answer resp = "Unable to generate answer: rate limit exceeded"
    ∧ reasoning_path resp = [].
Proof.
  destruct (synthesis_failure_degrades Scenario.llm_down
              "Who is Alice?" "hybrid" 5 2 world0 _ _ _ _
              "rate limit exceeded" _ eq_refl eq_refl)
    as (resp & w' & Hrun & Hanswer & Hpath & _).
  exists resp, w'. split; [exact Hrun | split; [exact Hanswer | exact Hpath]].
Defined.

End QueryWitnesses.

(** ** Scores, rounding and dicts *)

Section PythonFacts.

Lemma Qltb_lt (x y : Q) : Qltb x y = true ↔ (x < y)%Q.
Proof.
  unfold Qltb. rewrite negb_true_iff, <- not_true_iff_false, Qle_bool_iff.
  split; [apply Qnot_le_lt | apply Qlt_not_le].
Qed.

Lemma Qltb_ge (x y : Q) : Qltb x y = false ↔ (y <= x)%Q.
Proof. unfold Qltb. rewrite negb_false_iff. apply Qle_bool_iff. Qed.

(** Rounding never goes below an integer the number has reached. *)
Lemma round_half_even_ge (k : Z) (x : Q) :
  (inject_Z k <= x)%Q → k ≤ round_half_even x.
Proof.
  intros H.
  assert (k ≤ Qfloor x) by (rewrite <- (Qfloor_Z k); by apply Qfloor_resp_le).
  unfold round_half_even.
  destruct (_ ?= _)%Q; [destruct (Z.even _)|..]; lia.
Qed.

Lemma round4_ge_threshold (x : Q) : (0.2 <= x)%Q → (0.2 <= round4 x)%Q.
Proof.
  intros H. unfold round4.
  assert (Hk : 2000 ≤ round_half_even (x * 10000)).
  { apply round_half_even_ge. change (inject_Z 2000) with (2000 # 1)%Q. lra. }
  rewrite Zle_Qle in Hk. change (inject_Z 2000) with (2000 # 1)%Q in Hk.
  apply Qle_shift_div_l; [reflexivity|]. lra.
Qed.

Context {V : Type}.
Implicit Types (d : dict V) (k : string) (v : V).

Lemma dict_get_None k d : dict_get k d = None ↔ k ∉ d.*1.
Proof.
  induction d as [|[k' v'] d IH]; cbn [dict_get fmap list_fmap fst].
  - rewrite elem_of_nil. tauto.
  - rewrite not_elem_of_cons. case_decide; [|tauto].
    split; [discriminate | tauto].
Qed.

Lemma dict_has_true k d : dict_has k d = true ↔ k ∈ d.*1.
Proof.
  unfold dict_has. rewrite bool_decide_eq_true, <- not_eq_None_Some, dict_get_None.
  destruct (decide (k ∈ d.*1)); tauto.
Qed.

Lemma dict_get_elem_of k v d : dict_ok d → (k, v) ∈ d → dict_get k d = Some v.
Proof.
  unfold dict_ok. induction d as [|[k' v'] d IH]; cbn [dict_get fmap list_fmap fst].
  - intros _ H. by apply elem_of_nil in H.
  - rewrite NoDup_cons, elem_of_cons. intros [Hk Hd] [[= -> ->]|Hin].
    + case_decide; congruence.
    + case_decide as Heq; [|by apply IH].
      subst k'. destruct Hk. apply list_elem_of_fmap. by exists (k, v).
Qed.

Lemma dict_get_Some_elem_of k v d : dict_get k d = Some v → (k, v) ∈ d.
Proof.
  induction d as [|[k' v'] d IH]; cbn [dict_get]; [discriminate|].
  case_decide as Heq; [intros [= ->]; subst; left | right; by apply IH].
Qed.

Lemma dict_get_set_eq k v d : dict_get k (dict_set k v d) = Some v.
Proof.
  induction d as [|[k' v'] d IH]; cbn [dict_get dict_set].
  - case_decide; congruence.
  - case_decide; cbn [dict_get]; case_decide; congruence.
Qed.

Lemma dict_get_set_ne k k' v d : k ≠ k' → dict_get k' (dict_set k v d) = dict_get k' d.
Proof.
  intros Hne. induction d as [|[k1 v1] d IH]; cbn [dict_get dict_set].
  - case_decide; congruence.
  - case_decide; cbn [dict_get]; repeat case_decide; congruence.
Qed.

(** A new key goes last; an old key leaves the keys as they are. *)
Lemma dict_set_keys k v d :
  (dict_set k v d).*1 = if decide (k ∈ d.*1) then d.*1 else d.*1 ++ [k].
Proof.
  induction d as [|[k' v'] d IH]; cbn [dict_set fmap list_fmap fst app].
  - case_decide as Hin; [by apply elem_of_nil in Hin | done].
  - destruct (decide (k = k')) as [->|Hne]; cbn [fmap list_fmap fst].
    + rewrite decide_True; [done | left].
    + rewrite IH. destruct (decide (k ∈ d.*1)) as [Hin|Hin].
      * rewrite decide_True; [done | by right].
      * rewrite decide_False; [done|]. rewrite not_elem_of_cons. tauto.
Qed.

Lemma dict_set_ok k v d : dict_ok d → dict_ok (dict_set k v d).
Proof.
  unfold dict_ok. rewrite dict_set_keys. intros Hd.
  destruct (decide (k ∈ d.*1)); [done|].
  apply NoDup_app. split; [done|]. split; [|apply NoDup_singleton].
  intros x Hx ->%list_elem_of_singleton. done.
Qed.

End PythonFacts.

(** ** File search *)

(** A loop that returns has kept what every round keeps. *)
Lemma for_each_inv {A S : Type} (I : S → Prop) (l : list A) (body : S → A → M S)
    (acc acc' : S) (w w' : World) :
  (∀ s x w1 s' w2, x ∈ l → I s → body s x w1 = (Ok s', w2) → I s') →
  I acc →
  for_each l body acc w = (Ok acc', w') →
  I acc'.
Proof.
  revert acc w. induction l as [|x l IH]; intros acc w Hbody Hacc; cbn [for_each].
  - by intros [= <- _].
  - intros (s & w1 & Hx & Hrest)%run_bind_inv.
    apply (IH s w1); [|by eapply Hbody; [left|..]|done].
    intros ? ? ? ? ? Hin. apply Hbody. by right.
Qed.

Section FileSearch.
Import Neo4jClient Files.

Variable env : Collaborators.

Lemma final_score_weights (scores : Scores) :
  (final_score scores ==
   0.5 * semantic_score scores + 0.3 * entity_score scores
   + 0.2 * graph_score scores)%Q.
Proof. unfold final_score. ring. Qed.

(** The first loop stores the final score of every file, and keeps the
    greatest of them, or zero when none is positive. *)
Lemma score_all_from (file_scores : dict Scores) (acc : dict Q * Q) (d : string) :
  dict_ok file_scores →
  dict_get d (foldl score_one acc file_scores).1
  = match dict_get d file_scores with
    | Some scores => Some (final_score scores)
    | None => dict_get d acc.1
    end.
Proof.
  unfold dict_ok. revert acc.
  induction file_scores as [|[k scores] fs IH]; intros [raw m]; [done|].
  cbn [foldl fmap list_fmap fst]. rewrite NoDup_cons. intros [Hk Hfs].
  rewrite IH by done. cbn [score_one fst dict_get].
  case_decide as Heq.
  - subst k. apply dict_get_None in Hk. rewrite Hk. apply dict_get_set_eq.
  - destruct (dict_get d fs); [done|]. by apply dict_get_set_ne.
Qed.

Lemma raw_scores_get (file_scores : dict Scores) (d : string) :
  dict_ok file_scores →
  dict_get d (raw_scores file_scores).1 = final_score <$> dict_get d file_scores.
Proof.
  intros Hok. unfold raw_scores. rewrite score_all_from by done.
  by destruct (dict_get d file_scores).
Qed.

Lemma max_score_from (file_scores : dict Scores) (acc : dict Q * Q) :
  (acc.2 <= (foldl score_one acc file_scores).2)%Q
  ∧ ∀ d scores, (d, scores) ∈ file_scores →
      (final_score scores <= (foldl score_one acc file_scores).2)%Q.
Proof.
  revert acc. induction file_scores as [|[k sc] fs IH]; intros [raw m]; cbn [foldl].
  - split; [apply Qle_refl|]. intros d scores H. by apply elem_of_nil in H.
  - destruct (IH (score_one (raw, m) (k, sc))) as [Hacc Hall].
    assert (Hstep : (m <= (score_one (raw, m) (k, sc)).2
                     ∧ final_score sc <= (score_one (raw, m) (k, sc)).2)%Q).
    { cbn [score_one snd]. destruct (Qltb m (final_score sc)) eqn:Hlt.
      - apply Qltb_lt in Hlt. split; [by apply Qlt_le_weak | apply Qle_refl].
      - apply Qltb_ge in Hlt. split; [apply Qle_refl | done]. }
    split; [eapply Qle_trans; [apply Hstep | apply Hacc]|].
    intros d scores [[= -> ->]|Hin]%elem_of_cons; [|by eapply Hall].
    eapply Qle_trans; [apply Hstep | apply Hacc].
Qed.

(** C1. For every candidate file, the score stored in [file_raw_scores]
    before normalisation is 0.5 times its semantic score plus 0.3 times its
    entity score plus 0.2 times its graph score. *)
Theorem final_score_is_weighted_sum (file_scores : dict Scores)
    (doc_id : string) (scores : Scores) :
  dict_ok file_scores →
  (doc_id, scores) ∈ file_scores →
  ∃ raw_score,
    dict_get doc_id (raw_scores file_scores).1 = Some raw_score
    ∧ (raw_score ==
       0.5 * semantic_score scores + 0.3 * entity_score scores
       + 0.2 * graph_score scores)%Q.
Proof.
  intros Hok Hin. exists (final_score scores). split.
  - rewrite raw_scores_get by done. by rewrite (dict_get_elem_of _ _ _ Hok Hin).
  - apply final_score_weights.
Qed.

(** What step 5 guarantees of a ranked file: its relevance is the rounded
    quotient of its stored score by the greatest one, and the quotient has
    reached the cutoff. *)
Definition ranked_ok (file_raw_scores : dict Q) (max_score : Q) (m : FileMatch) : Prop :=
  ∃ raw_score,
    dict_get (file_id m) file_raw_scores = Some raw_score
    ∧ relevance_score m = round4 (normalize raw_score max_score)
    ∧ (0.2 <= normalize raw_score max_score)%Q.

Lemma rank_one_keeps t file_raw_scores max_score file_type_filter
    ranked_files entry w ranked_files' w' :
  Forall (ranked_ok file_raw_scores max_score) ranked_files →
  rank_one env t file_raw_scores max_score file_type_filter ranked_files entry w
  = (Ok ranked_files', w') →
  Forall (ranked_ok file_raw_scores max_score) ranked_files'.
Proof.
  intros Hranked. unfold rank_one. destruct entry as [doc_id scores].
  destruct (dict_get doc_id file_raw_scores) as [raw_score|] eqn:Hraw;
    [|discriminate].
  rewrite run_bind. unfold call.
  destruct (get_document env doc_id) as [[doc_info|]|e];
    [| by intros [= <- _] | discriminate].
  case_decide; [by intros [= <- _]|].
  match goal with
  | |- (if ?b then _ else _) _ = _ → _ => destruct b; [by intros [= <- _]|]
  end.
  rewrite run_bind.
  destruct (get_relationships_by_doc env doc_id) as [relationships|e];
    [|discriminate].
  destruct (Qltb (normalize raw_score max_score) 0.2) eqn:Hcut;
    [by intros [= <- _]|].
  intros [= <- _]. apply Forall_app. split; [done|].
  apply Forall_singleton. exists raw_score.
  split; [done|]. split; [done|]. by apply Qltb_ge.
Qed.

Lemma elem_of_insert_desc (x y : FileMatch) (l : list FileMatch) :
  x ∈ insert_desc y l ↔ x = y ∨ x ∈ l.
Proof.
  induction l as [|z l IH]; cbn [insert_desc].
  - rewrite list_elem_of_singleton, elem_of_nil. tauto.
  - destruct (Qltb _ _); rewrite !elem_of_cons, ?IH; tauto.
Qed.

Lemma elem_of_sort_desc (x : FileMatch) (l : list FileMatch) :
  x ∈ sort_desc l ↔ x ∈ l.
Proof.
  unfold sort_desc. induction l as [|y l IH]; cbn [foldr]; [done|].
  by rewrite elem_of_insert_desc, IH, elem_of_cons.
Qed.

Lemma elem_of_slice_to {A : Type} (k : Z) (l : list A) (x : A) :
  x ∈ slice_to k l → x ∈ l.
Proof.
  unfold slice_to. destruct (0 <=? k); apply subseteq_take.
Qed.

(** The files step 5 returns all satisfy [ranked_ok]. *)
Lemma rank_files_ranked t file_type_filter top_k w ranked_files w' :
  rank_files env t file_type_filter top_k w = (Ok ranked_files, w') →
  Forall (ranked_ok (raw_scores (file_scores t)).1 (raw_scores (file_scores t)).2)
         ranked_files.
Proof.
  unfold rank_files. destruct (raw_scores (file_scores t)) as [file_raw_scores max_score].
  intros (ranked & w1 & Hloop & [= <- _])%run_bind_inv.
  assert (Hall : Forall (ranked_ok file_raw_scores max_score) ranked).
  { revert Hloop.
    apply (for_each_inv (Forall (ranked_ok file_raw_scores max_score)));
      [|constructor].
    intros ? ? ? ? ? _. apply rank_one_keeps. }
  rewrite Forall_forall in Hall |- *.
  intros m Hm. apply Hall.
  apply elem_of_sort_desc. eapply elem_of_slice_to, Hm.
Qed.

(** A search that returns has returned what steps 1 to 5 computed. *)
Lemma run_search_files request w resp w' :
  search_files env request w = (Ok resp, w') →
  ∃ t w1,
    aggregate env (req_query request) (req_top_k request) w = (Ok t, w1)
    ∧ rank_files env t (req_file_type request) (req_top_k request) w1
      = (Ok (files resp), w')
    ∧ total_matches resp = length (files resp)
    ∧ resp_query resp = req_query request.
Proof.
  unfold search_files, try_except.
  match goal with |- context [match ?m w with _ => _ end] => destruct (m w) as [[r|e] w2] eqn:Hbody end;
    [|discriminate].
  intros [= <- <-].
  apply run_bind_inv in Hbody as (t & w1 & Hagg & Hrest).
  apply run_bind_inv in Hrest as (ranked & w3 & Hrank & [= <- <-]).
  by exists t, w1.
Qed.

(** C7. No file whose normalised score is below 0.2 is returned by a
    search: every returned match carries the rounding of a normalised
    score of at least 0.2, and its relevance score is at least 0.2 too. *)
Theorem ranked_files_above_threshold request w resp w' :
  search_files env request w = (Ok resp, w') →
  Forall (λ m, ∃ normalized_score,
            relevance_score m = round4 normalized_score
            ∧ (0.2 <= normalized_score)%Q
            ∧ (0.2 <= relevance_score m)%Q)
         (files resp).
Proof.
  intros (t & w1 & _ & Hrank & _)%run_search_files.
  apply rank_files_ranked in Hrank.
  eapply Forall_impl; [exact Hrank|].
  intros m (raw_score & _ & Hrel & Hcut).
  eexists. split; [exact Hrel|]. split; [exact Hcut|].
  rewrite Hrel. by apply round4_ge_threshold.
Qed.

(** The aggregation keeps the keys of [file_scores] distinct. *)
Lemma dict_alter_keys {V : Type} (f : V → V) (k : string) (d : dict V) :
  (dict_alter f k d).*1 = d.*1.
Proof.
  unfold dict_alter. induction d as [|[k' v] d IH]; [done|].
  cbn [fmap list_fmap fst snd]. cbn [fmap] in IH. rewrite IH.
  by case_decide.
Qed.

Lemma ensure_doc_ok (doc_id : string) (t : Tables) :
  dict_ok (file_scores t) → dict_ok (file_scores (ensure_doc doc_id t)).
Proof.
  intros Hok. unfold ensure_doc. destruct (dict_has _ _); [done|].
  by apply dict_set_ok.
Qed.

Lemma on_scores_alter_ok (f : Scores → Scores) (doc_id : string) (t : Tables) :
  dict_ok (file_scores t) →
  dict_ok (file_scores (on_scores (dict_alter f doc_id) t)).
Proof. unfold dict_ok. cbn [on_scores file_scores]. by rewrite dict_alter_keys. Qed.

Lemma process_semantic_ok (t : Tables) (result : Hit) :
  dict_ok (file_scores t) → dict_ok (file_scores (process_semantic t result)).
Proof.
  intros Hok. unfold process_semantic. case_decide; [done|].
  cbn [on_chunks file_scores]. by apply on_scores_alter_ok, ensure_doc_ok.
Qed.

Lemma process_neighbor_ok t neighbor w t' w' :
  dict_ok (file_scores t) →
  process_neighbor env t neighbor w = (Ok t', w') →
  dict_ok (file_scores t').
Proof.
  intros Hok. unfold process_neighbor.
  destruct (nb_entity neighbor) as [neighbor_entity|]; [|discriminate].
  intros (doc_id & w1 & _ & Hrest)%run_bind_inv. revert Hrest.
  destruct (truthy doc_id) as [neighbor_doc_id|]; [|by intros [= <- _]].
  case_decide; [discriminate|]. intros [= <- _].
  cbn [on_entities file_scores]. by apply on_scores_alter_ok, ensure_doc_ok.
Qed.

Lemma process_entity_ok t entity w t' w' :
  dict_ok (file_scores t) →
  process_entity env t entity w = (Ok t', w') →
  dict_ok (file_scores t').
Proof.
  intros Hok. unfold process_entity.
  intros (doc_id & w1 & _ & Hrest)%run_bind_inv. revert Hrest.
  destruct (truthy doc_id) as [d|]; [|by intros [= <- _]].
  intros (name & w2 & _ & Hrest)%run_bind_inv.
  apply run_bind_inv in Hrest as (entity_id & w3 & _ & Hrest).
  apply run_bind_inv in Hrest as (neighbors & w4 & _ & Hloop).
  revert Hloop. apply (for_each_inv (λ t, dict_ok (file_scores t))).
  - intros ? ? ? ? ? _. apply process_neighbor_ok.
  - cbn [on_entities file_scores]. by apply on_scores_alter_ok, ensure_doc_ok.
Qed.

Lemma aggregate_ok query top_k w t w' :
  aggregate env query top_k w = (Ok t, w') → dict_ok (file_scores t).
Proof.
  unfold aggregate.
  intros (semantic_results & w1 & _ & Hrest)%run_bind_inv.
  apply run_bind_inv in Hrest as (matching_entities & w2 & _ & Hloop).
  revert Hloop. apply (for_each_inv (λ t, dict_ok (file_scores t))).
  - intros ? ? ? ? ? _. apply process_entity_ok.
  - generalize no_tables (NoDup_nil_2 (A := string) : dict_ok (file_scores no_tables)).
    induction semantic_results as [|result results IH]; intros t0 H0; [done|].
    cbn [foldl]. by apply IH, process_semantic_ok.
Qed.

(** With distinct keys, a ranked file carries the rounded quotient of its
    own final score by the greatest final score of all candidates. *)
Lemma rank_files_normalized t file_type_filter top_k w ranked_files w' :
  dict_ok (file_scores t) →
  rank_files env t file_type_filter top_k w = (Ok ranked_files, w') →
  Forall (λ m, ∃ scores,
            (file_id m, scores) ∈ file_scores t
            ∧ relevance_score m
              = round4 (normalize (final_score scores) (raw_scores (file_scores t)).2))
         ranked_files.
Proof.
  intros Hok Hrank%rank_files_ranked.
  eapply Forall_impl; [exact Hrank|].
  intros m (raw_score & Hraw & Hrel & _).
  rewrite raw_scores_get in Hraw by done.
  destruct (dict_get (file_id m) (file_scores t)) as [scores|] eqn:Hget;
    [|discriminate].
  injection Hraw as <-. exists scores.
  split; [by apply dict_get_Some_elem_of | exact Hrel].
Qed.

End FileSearch.

Section FileSearchExamples.
Import Neo4jClient Files.

Lemma final_score_is_weighted_sum_witness :
  ∃ raw_score,
    dict_get "B" (raw_scores Scenario.two_candidates).1 = Some raw_score
    ∧ (raw_score == 0.4)%Q.
Proof.
  destruct (final_score_is_weighted_sum Scenario.two_candidates "B"
              {| semantic_score := 0; entity_score := 1; graph_score := 0.5 |})
    as (raw_score & Hget & Hraw).
  - apply (bool_decide_unpack _). reflexivity.
  - right. left.
  - exists raw_score. split; [exact Hget|]. rewrite Hraw. reflexivity.
Defined.

Lemma ranked_files_above_threshold_witness :
  ∃ resp w',
    search_files Scenario.library (Scenario.search_for None) world0 = (Ok resp, w')
    ∧ Forall (λ m, (0.2 <= relevance_score m)%Q) (files resp).
Proof.
  eexists _, _. split; [vm_compute; reflexivity|].
  eapply Forall_impl.
  - eapply (ranked_files_above_threshold Scenario.library
              (Scenario.search_for None) world0).
    vm_compute. reflexivity.
  - intros m (normalized_score & _ & _ & Hrel). exact Hrel.
Defined.

(** C10. The greatest final score, by which every score is divided, is
    taken over all candidate files, before any file is looked up or
    filtered by type: every ranked file carries its own final score divided
    by that maximum. So with a type filter the best surviving file can have
    a relevance below 1 (the notes, at 0.5, behind the filtered-out report),
    and the only file of the requested type can fall below the cutoff (the
    draft, at 0.1), leaving no result although a file of that type matched. *)
Theorem normalization_precedes_filters :
  (∀ env query top_k file_type_filter w t w1 ranked_files w2,
     aggregate env query top_k w = (Ok t, w1) →
     rank_files env t file_type_filter top_k w1 = (Ok ranked_files, w2) →
     let max_score := (raw_scores (file_scores t)).2 in
     (∀ doc_id scores,
        (doc_id, scores) ∈ file_scores t → (final_score scores <= max_score)%Q)
     ∧ Forall (λ m, ∃ scores,
                 (file_id m, scores) ∈ file_scores t
                 ∧ relevance_score m
                   = round4 (normalize (final_score scores) max_score))
              ranked_files)
  ∧ (∃ resp w' top,
       search_files Scenario.library (Scenario.search_for (Some "txt")) world0
       = (Ok resp, w')
       ∧ files resp = [top]
       ∧ file_id top = "d2"
       ∧ file_type top = "txt"
       ∧ (relevance_score top == 0.5)%Q
       ∧ (relevance_score top < 1)%Q)
  ∧ (∃ resp w' t w1 scores doc_info,
       search_files Scenario.library (Scenario.search_for (Some "docx")) world0
       = (Ok resp, w')
       ∧ files resp = []
       ∧ aggregate Scenario.library "annual" 10 world0 = (Ok t, w1)
       ∧ ("d3", scores) ∈ file_scores t
       ∧ (0 < final_score scores)%Q
       ∧ get_document Scenario.library "d3" = Ok (Some doc_info)
       ∧ file_type_of (default "Unknown" (doc_info !! "filename")) = "docx").
Proof.
  split; [|split].
  - intros env query top_k file_type_filter w t w1 ranked_files w2 Hagg Hrank.
    cbv zeta. split.
    + intros doc_id scores Hin.
      exact (proj2 (max_score_from (file_scores t) ([], 0%Q)) doc_id scores Hin).
    + eapply rank_files_normalized; [by eapply aggregate_ok | exact Hrank].
  - eexists _, _, _. split; [vm_compute; reflexivity|].
    split; [reflexivity|]. repeat split; vm_compute; reflexivity.
  - eexists _, _, _, _, _, _. split; [vm_compute; reflexivity|].
    split; [reflexivity|]. split; [vm_compute; reflexivity|].
    split; [right; right; left|]. split; [vm_compute; reflexivity|].
    split; [reflexivity | vm_compute; reflexivity].
Qed.

End FileSearchExamples.

(** ** The weighted sum in binary64 arithmetic *)

Section Binary64.
Import Files.

#[local] Set Warnings "-inexact-float".

(** The expression of [final_score] as Python evaluates it: every product
    and sum rounded to binary64, 0.3 and 0.2 being the nearest doubles. *)
Definition final_score_binary64 (semantic_score entity_score graph_score : float)
    : float :=
  (semantic_score * 0.5 + entity_score * 0.3 + graph_score * 0.2)%float.

Lemma SFmul_comm (prec emax : Z) (x y : spec_float) :
  SFmul prec emax x y = SFmul prec emax y x.
Proof.
  destruct x as [sx|sx| |sx mx ex], y as [sy|sy| |sy my ey]; cbn;
    rewrite ?(xorb_comm sx sy), ?(Pos.mul_comm mx my), ?(Z.add_comm ex ey);
    reflexivity.
Qed.

Lemma binary64_mul_comm (x y : float) : (x * y = y * x)%float.
Proof. apply Prim2SF_inj. rewrite !mul_spec. apply SFmul_comm. Qed.

(** Rounding does not tell the two ways of writing the sum apart. *)
Lemma final_score_binary64_weights (s e g : float) :
  final_score_binary64 s e g = (0.5 * s + 0.3 * e + 0.2 * g)%float.
Proof.
  unfold final_score_binary64.
  by rewrite (binary64_mul_comm s), (binary64_mul_comm e), (binary64_mul_comm g).
Qed.

(** The two candidates of the ranking example score 1 and 0.4 (the double
    nearest to it). *)
Example final_score_binary64_two_candidates :
  final_score_binary64 2 0 0 = 1%float
  ∧ final_score_binary64 0 1 0.5 = 0.4%float.
Proof. split; vm_compute; reflexivity. Qed.

End Binary64.

(** * Further properties *)

(** ** What a file search returns *)

Section SearchResults.
Import Neo4jClient Files.

Variable env : Collaborators.

(** What step 5 has checked of a file before it appends it. *)
Definition listed (file_type_filter : option string) (m : FileMatch) : Prop :=
  (∃ doc_info,
     get_document env (file_id m) = Ok (Some doc_info)
     ∧ doc_info ≠ ∅
     ∧ filename m = default "Unknown" (doc_info !! "filename"))
  ∧ file_type m = file_type_of (filename m)
  ∧ (∀ f, truthy file_type_filter = Some f → file_type m = lower f)
  ∧ (length (matched_entities m) ≤ 10
     ∧ length (matched_relationships m) ≤ 5
     ∧ length (matched_chunks m) ≤ 3)%nat.

Lemma rank_one_appends t file_raw_scores max_score file_type_filter
    ranked_files entry w ranked_files' w' :
  rank_one env t file_raw_scores max_score file_type_filter ranked_files entry w
  = (Ok ranked_files', w') →
  ranked_files' = ranked_files
  ∨ ∃ m, ranked_files' = ranked_files ++ [m]
         ∧ file_id m = entry.1
         ∧ listed file_type_filter m.
Proof.
  unfold rank_one. destruct entry as [doc_id scores].
  destruct (dict_get doc_id file_raw_scores) as [raw_score|]; [|discriminate].
  rewrite run_bind. unfold call.
  destruct (get_document env doc_id) as [[doc_info|]|e] eqn:Hdoc;
    [| intros [= <- _]; by left | discriminate].
  case_decide as Hempty; [intros [= <- _]; by left|].
  destruct (truthy file_type_filter) as [f|] eqn:Hfilter.
  - case_bool_decide as Htype; [intros [= <- _]; by left|].
    rewrite run_bind.
    destruct (get_relationships_by_doc env doc_id); [|discriminate].
    destruct (Qltb _ _); intros [= <- _]; [by left|]. right.
    eexists. split; [reflexivity|]. split; [reflexivity|].
    unfold listed, relationship_types_of.
    cbn [file_id filename file_type matched_entities matched_relationships
         matched_chunks].
    split; [by exists doc_info|]. split; [done|].
    split; [intros f' Hf'; assert (f' = f) as -> by congruence;
            exact Htype|].
    rewrite !length_take. lia.
  - rewrite run_bind.
    destruct (get_relationships_by_doc env doc_id); [|discriminate].
    destruct (Qltb _ _); intros [= <- _]; [by left|]. right.
    eexists. split; [reflexivity|]. split; [reflexivity|].
    unfold listed, relationship_types_of.
    cbn [file_id filename file_type matched_entities matched_relationships
         matched_chunks].
    split; [by exists doc_info|]. split; [done|].
    split; [intros f' Hf'; congruence|].
    rewrite !length_take. lia.
Qed.

(** The second loop appends files in the order of [file_scores], each at
    most once. *)
Lemma rank_loop_appends t file_raw_scores max_score file_type_filter
    (entries : dict Scores) ranked_files w ranked_files' w' :
  for_each entries
    (rank_one env t file_raw_scores max_score file_type_filter) ranked_files w
  = (Ok ranked_files', w') →
  ∃ appended,
    ranked_files' = ranked_files ++ appended
    ∧ (file_id <$> appended) `sublist_of` entries.*1
    ∧ Forall (listed file_type_filter) appended.
Proof.
  revert ranked_files w.
  induction entries as [|entry entries IH]; intros ranked_files w; cbn [for_each].
  - intros [= <- _]. exists []. by rewrite app_nil_r.
  - intros (ranked1 & w1 & Hone & Hrest)%run_bind_inv.
    apply IH in Hrest as (appended & -> & Hsub & Hall).
    apply rank_one_appends in Hone as [->|(m & -> & Hid & Hm)].
    + exists appended. split; [done|]. split; [|done].
      cbn [fmap list_fmap]. by apply sublist_cons.
    + exists (m :: appended). rewrite <- app_assoc. split; [done|].
      split; [|by constructor].
      cbn [fmap list_fmap]. rewrite Hid. by apply sublist_skip.
Qed.

Lemma insert_desc_perm (x : FileMatch) (l : list FileMatch) :
  insert_desc x l ≡ₚ x :: l.
Proof.
  induction l as [|y l IH]; cbn [insert_desc]; [done|].
  destruct (Qltb _ _); [|done]. rewrite IH. apply perm_swap.
Qed.

(** Sorting drops and adds no file. *)
Lemma sort_desc_perm (l : list FileMatch) : sort_desc l ≡ₚ l.
Proof.
  unfold sort_desc. induction l as [|x l IH]; cbn [foldr]; [done|].
  by rewrite insert_desc_perm, IH.
Qed.

(** The order [sort] leaves: no file is followed by one of greater
    relevance. *)
Definition by_relevance (a b : FileMatch) : Prop :=
  (relevance_score b <= relevance_score a)%Q.

Lemma insert_desc_sorted (x : FileMatch) (l : list FileMatch) :
  StronglySorted by_relevance l → StronglySorted by_relevance (insert_desc x l).
Proof.
  induction 1 as [|y l Hl IH Hy]; cbn [insert_desc].
  - by repeat constructor.
  - destruct (Qltb (relevance_score x) (relevance_score y)) eqn:Hlt.
    + apply Qltb_lt in Hlt. constructor; [done|].
      rewrite Forall_forall in Hy |- *.
      intros z [->|Hz]%elem_of_insert_desc; [by apply Qlt_le_weak | by apply Hy].
    + apply Qltb_ge in Hlt. constructor; [by constructor|].
      constructor; [done|].
      eapply Forall_impl; [exact Hy|]. intros z Hz. unfold by_relevance in *.
      by eapply Qle_trans.
Qed.

Lemma sort_desc_sorted (l : list FileMatch) : StronglySorted by_relevance (sort_desc l).
Proof.
  unfold sort_desc. induction l as [|x l IH]; cbn [foldr]; [constructor|].
  by apply insert_desc_sorted.
Qed.

Lemma slice_to_take {A : Type} (k : Z) (l : list A) : ∃ n, slice_to k l = take n l.
Proof. unfold slice_to. destruct (0 <=? k); eauto. Qed.

Lemma take_sorted (n : nat) (l : list FileMatch) :
  StronglySorted by_relevance l → StronglySorted by_relevance (take n l).
Proof.
  intros Hl. rewrite <- (take_drop n l) in Hl.
  by apply StronglySorted_app_1_l in Hl.
Qed.

(** Everything a returning search is known to have done. *)
Lemma search_files_results request w resp w' :
  search_files env request w = (Ok resp, w') →
  ∃ t w1 appended n,
    aggregate env (req_query request) (req_top_k request) w = (Ok t, w1)
    ∧ files resp = take n (sort_desc appended)
    ∧ (file_id <$> appended) `sublist_of` (file_scores t).*1
    ∧ Forall (listed (req_file_type request)) appended
    ∧ slice_to (req_top_k request) (sort_desc appended) = take n (sort_desc appended).
Proof.
  intros (t & w1 & Hagg & Hrank & _)%run_search_files.
  exists t, w1. revert Hrank. unfold rank_files.
  destruct (raw_scores (file_scores t)) as [file_raw_scores max_score].
  intros (ranked & w2 & Hloop & [= Hfiles _])%run_bind_inv.
  apply rank_loop_appends in Hloop as (appended & -> & Hsub & Hall).
  destruct (slice_to_take (req_top_k request) (sort_desc appended)) as [n Hn].
  exists appended, n. cbn [app] in *. rewrite <- Hfiles. by rewrite Hn.
Qed.

(** The files come in descending order of relevance. *)
Theorem search_files_sorted request w resp w' :
  search_files env request w = (Ok resp, w') →
  StronglySorted by_relevance (files resp).
Proof.
  intros (t & w1 & appended & n & _ & -> & _)%search_files_results.
  apply take_sorted, sort_desc_sorted.
Qed.

(** No file is returned twice. *)
Theorem search_files_distinct request w resp w' :
  search_files env request w = (Ok resp, w') →
  NoDup (file_id <$> files resp).
Proof.
  intros (t & w1 & appended & n & Hagg & -> & Hsub & _)%search_files_results.
  apply aggregate_ok in Hagg.
  apply (sublist_NoDup _ (file_id <$> sort_desc appended));
    [|apply fmap_sublist, sublist_take].
  rewrite sort_desc_perm. by eapply sublist_NoDup.
Qed.

(** With a file-type filter, only files of that type are returned; every
    returned file names a document the graph knows, and its type is the
    one its file name gives. *)
Theorem search_files_filtered request w resp w' :
  search_files env request w = (Ok resp, w') →
  Forall (λ m,
            (∀ f, truthy (req_file_type request) = Some f → file_type m = lower f)
            ∧ file_type m = file_type_of (filename m)
            ∧ ∃ doc_info,
                get_document env (file_id m) = Ok (Some doc_info)
                ∧ filename m = default "Unknown" (doc_info !! "filename"))
         (files resp).
Proof.
  intros (t & w1 & appended & n & _ & -> & _ & Hall & _)%search_files_results.
  rewrite Forall_forall in Hall |- *. intros m Hm.
  assert (Hin : m ∈ appended).
  { apply elem_of_sort_desc. eapply subseteq_take, Hm. }
  destruct (Hall m Hin) as ((doc_info & Hdoc & _ & Hname) & Htype & Hfilter & _).
  split; [done|]. split; [done|]. by exists doc_info.
Qed.

(** The lists of a match are cut to 10 entities, 5 relationship types and
    3 chunks; the count reported is the number of files, which does not
    exceed a non-negative [top_k]. *)
Theorem search_files_bounded request w resp w' :
  search_files env request w = (Ok resp, w') →
  total_matches resp = length (files resp)
  ∧ (0 ≤ req_top_k request → Z.of_nat (length (files resp)) ≤ req_top_k request)
  ∧ Forall (λ m, (length (matched_entities m) ≤ 10
                  ∧ length (matched_relationships m) ≤ 5
                  ∧ length (matched_chunks m) ≤ 3)%nat)
           (files resp).
Proof.
  intros Hrun. pose proof Hrun as (_ & _ & _ & _ & Htotal & _)%run_search_files.
  apply search_files_results in Hrun
    as (t & w1 & appended & n & _ & Hfiles & _ & Hall & Hslice).
  split; [done|]. split.
  - intros Hk. rewrite Hfiles, <- Hslice. unfold slice_to.
    rewrite (proj2 (Z.leb_le 0 _) Hk), length_take. lia.
  - rewrite Hfiles. rewrite Forall_forall in Hall |- *. intros m Hm.
    assert (Hin : m ∈ appended).
    { apply elem_of_sort_desc. eapply subseteq_take, Hm. }
    by destruct (Hall m Hin) as (_ & _ & _ & Hlen).
Qed.

End SearchResults.

Section SearchScores.
Import Neo4jClient Files.

Variable env : Collaborators.

(** Rounding never goes above an integer the number has not passed. *)
Lemma round_half_even_le (k : Z) (x : Q) :
  (x <= inject_Z k)%Q → round_half_even x ≤ k.
Proof.
  intros H. unfold round_half_even.
  pose proof (Qfloor_le x) as Hfl.
  assert (Hle : Qfloor x ≤ k).
  { rewrite <- (Qfloor_Z k). by apply Qfloor_resp_le. }
  destruct (decide (Qfloor x = k)) as [Heq|Hne].
  - assert (Hlt : (x - inject_Z (Qfloor x) < 1 # 2)%Q) by (rewrite Heq in *; lra).
    rewrite Qlt_alt in Hlt. rewrite Hlt. lia.
  - destruct (_ ?= _)%Q; [destruct (Z.even _)|..]; lia.
Qed.

Lemma round4_le_one (x : Q) : (x <= 1)%Q → (round4 x <= 1)%Q.
Proof.
  intros H. unfold round4.
  assert (Hk : round_half_even (x * 10000) ≤ 10000).
  { apply round_half_even_le. change (inject_Z 10000) with (10000 # 1)%Q. lra. }
  rewrite Zle_Qle in Hk. change (inject_Z 10000) with (10000 # 1)%Q in Hk.
  apply Qle_shift_div_r; [reflexivity|]. lra.
Qed.

Lemma normalize_le_one (raw_score max_score : Q) :
  (raw_score <= max_score)%Q → (normalize raw_score max_score <= 1)%Q.
Proof.
  intros H. unfold normalize. destruct (Qltb 0 max_score) eqn:Hpos; [|done].
  apply Qltb_lt in Hpos. apply Qle_shift_div_r; [done|]. lra.
Qed.

(** The relevance of a returned file never exceeds 1. *)
Theorem search_files_relevance_at_most_one request w resp w' :
  search_files env request w = (Ok resp, w') →
  Forall (λ m, (relevance_score m <= 1)%Q) (files resp).
Proof.
  intros (t & w1 & Hagg & Hrank & _)%run_search_files.
  apply aggregate_ok in Hagg.
  apply (rank_files_normalized env) in Hrank; [|done].
  eapply Forall_impl; [exact Hrank|].
  intros m (scores & Hin & ->). apply round4_le_one, normalize_le_one.
  exact (proj2 (max_score_from (file_scores t) ([], 0%Q)) _ _ Hin).
Qed.

(** When no candidate has a positive final score, the maximum stays 0. *)
Lemma max_score_zero (file_scores : dict Scores) (file_raw_scores : dict Q) :
  (∀ d scores, (d, scores) ∈ file_scores → (final_score scores <= 0)%Q) →
  (foldl score_one (file_raw_scores, 0%Q) file_scores).2 = 0%Q.
Proof.
  revert file_raw_scores.
  induction file_scores as [|[k sc] fs IH]; intros raw Hall; [done|].
  cbn [foldl score_one].
  assert (Hk : Qltb 0 (final_score sc) = false).
  { apply Qltb_ge. apply (Hall k). left. }
  rewrite Hk. apply IH. intros d scores Hin. apply (Hall d). by right.
Qed.

(** When no candidate has a positive final score, every normalised score
    is 0 and the ranking returns no file at all. *)
Theorem rank_files_nothing_positive t file_type_filter top_k w ranked_files w' :
  (∀ d scores, (d, scores) ∈ file_scores t → (final_score scores <= 0)%Q) →
  rank_files env t file_type_filter top_k w = (Ok ranked_files, w') →
  ranked_files = [].
Proof.
  intros Hall Hrank%rank_files_ranked.
  unfold raw_scores in Hrank. rewrite (max_score_zero _ _ Hall) in Hrank.
  destruct ranked_files as [|m ranked_files]; [done|].
  apply Forall_cons in Hrank as [(raw_score & _ & _ & Hcut) _].
  unfold normalize in Hcut. by cbn in Hcut.
Qed.

End SearchScores.

(** ** What the aggregation keeps *)

Section Aggregation.
Import Neo4jClient Files.

Variable env : Collaborators.

Lemma dict_get_alter {V : Type} (f : V → V) (k d : string) (dd : dict V) :
  dict_get d (dict_alter f k dd)
  = if decide (k = d) then f <$> dict_get d dd else dict_get d dd.
Proof.
  unfold dict_alter. induction dd as [|[k' v] dd IH]; cbn [fmap list_fmap dict_get].
  - by case_decide.
  - cbn [fst snd]. destruct (decide (k = k')) as [->|Hk]; cbn [dict_get];
      repeat case_decide; subst; try done; by rewrite IH; case_decide.
Qed.

(** The three dicts have the same keys, in the same order, and the empty
    string is not one of them. *)
Definition coherent (t : Tables) : Prop :=
  (file_matched_chunks t).*1 = (file_scores t).*1
  ∧ (file_matched_entities t).*1 = (file_scores t).*1
  ∧ "" ∉ (file_scores t).*1.

Lemma ensure_doc_coherent (doc_id : string) (t : Tables) :
  doc_id ≠ "" → coherent t → coherent (ensure_doc doc_id t).
Proof.
  intros Hne (Hc & He & Hk). unfold ensure_doc.
  destruct (dict_has doc_id (file_scores t)) eqn:Hhas; [done|].
  unfold coherent. cbn [file_scores file_matched_chunks file_matched_entities].
  rewrite !dict_set_keys, Hc, He.
  destruct (decide (doc_id ∈ (file_scores t).*1)) as [Hin|Hin]; [done|].
  split; [done|]. split; [done|].
  rewrite elem_of_app, list_elem_of_singleton. intros [?|?]; congruence.
Qed.

Lemma on_scores_coherent f k t : coherent t → coherent (on_scores (dict_alter f k) t).
Proof.
  unfold coherent. cbn [on_scores file_scores file_matched_chunks file_matched_entities].
  by rewrite dict_alter_keys.
Qed.

Lemma on_chunks_coherent f k t : coherent t → coherent (on_chunks (dict_alter f k) t).
Proof.
  unfold coherent. cbn [on_chunks file_scores file_matched_chunks file_matched_entities].
  by rewrite dict_alter_keys.
Qed.

Lemma on_entities_coherent f k t :
  coherent t → coherent (on_entities (dict_alter f k) t).
Proof.
  unfold coherent. cbn [on_entities file_scores file_matched_chunks file_matched_entities].
  by rewrite dict_alter_keys.
Qed.

Lemma truthy_Some (o : option string) (d : string) : truthy o = Some d → d ≠ "".
Proof.
  unfold truthy. destruct o as [s|]; [|discriminate].
  case_decide; [discriminate|]. by intros [= <-].
Qed.

(** The semantic score recorded for a document, 0 when it has none. *)
Definition semantic_of (t : Tables) (d : string) : Q :=
  from_option semantic_score 0%Q (dict_get d (file_scores t)).

Lemma semantic_of_ensure_doc k t d : semantic_of (ensure_doc k t) d = semantic_of t d.
Proof.
  unfold semantic_of, ensure_doc.
  destruct (dict_has k (file_scores t)) eqn:Hhas; [done|]. cbn [file_scores].
  destruct (decide (k = d)) as [->|Hne].
  - rewrite dict_get_set_eq.
    apply not_true_iff_false in Hhas. rewrite dict_has_true in Hhas.
    apply dict_get_None in Hhas. by rewrite Hhas.
  - by rewrite dict_get_set_ne.
Qed.

Lemma semantic_of_other f k t d :
  (∀ s, semantic_score (f s) = semantic_score s) →
  semantic_of (on_scores (dict_alter f k) t) d = semantic_of t d.
Proof.
  intros Hf. unfold semantic_of. cbn [on_scores file_scores].
  rewrite dict_get_alter. case_decide; [|done].
  destruct (dict_get d (file_scores t)); cbn; [apply Hf | done].
Qed.

(** What one similarity hit adds to the semantic score of document [d]. *)
Definition add_hit (d : string) (total : Q) (result : Hit) : Q :=
  if decide (default "" (hit_metadata result !! "doc_id") = d)
  then (total + hit_score result)%Q else total.

Lemma process_semantic_inv t result d :
  d ≠ "" → coherent t →
  coherent (process_semantic t result)
  ∧ semantic_of (process_semantic t result) d = add_hit d (semantic_of t d) result.
Proof.
  intros Hd Ht. unfold process_semantic, add_hit.
  destruct (decide (default "" (hit_metadata result !! "doc_id") = "")) as [Hempty|Hne].
  - split; [done|]. rewrite Hempty. by rewrite decide_False.
  - split; [by apply on_chunks_coherent, on_scores_coherent, ensure_doc_coherent|].
    unfold semantic_of at 1. cbn [on_chunks file_scores on_scores].
    rewrite dict_get_alter.
    fold (semantic_of t d). case_decide as Heq.
    + rewrite <- (semantic_of_ensure_doc
                    (default "" (hit_metadata result !! "doc_id")) t d).
      unfold semantic_of. rewrite Heq.
      destruct (dict_get d (file_scores (ensure_doc d t))) as [s|] eqn:Hget; [done|].
      exfalso. apply dict_get_None in Hget. apply Hget.
      unfold ensure_doc. destruct (dict_has d (file_scores t)) eqn:Hhas.
      * by apply dict_has_true.
      * cbn [file_scores]. rewrite dict_set_keys.
        case_decide; [done|]. apply elem_of_app. right. left.
    + fold (semantic_of (ensure_doc (default "" (hit_metadata result !! "doc_id")) t) d).
      apply semantic_of_ensure_doc.
Qed.

Lemma process_neighbor_inv t neighbor w t' w' d :
  coherent t →
  process_neighbor env t neighbor w = (Ok t', w') →
  coherent t' ∧ semantic_of t' d = semantic_of t d.
Proof.
  intros Ht. unfold process_neighbor.
  destruct (nb_entity neighbor) as [neighbor_entity|]; [|discriminate].
  intros (doc_id & w1 & _ & Hrest)%run_bind_inv. revert Hrest.
  destruct (truthy doc_id) as [neighbor_doc_id|] eqn:Hid; [|by intros [= <- _]].
  apply truthy_Some in Hid.
  case_decide; [discriminate|]. intros [= <- _]. split.
  - by apply on_entities_coherent, on_scores_coherent, ensure_doc_coherent.
  - unfold semantic_of at 1. cbn [on_entities file_scores].
    fold (semantic_of (on_scores (dict_alter (add_graph (1 / inject_Z (nb_distance neighbor)))
                                             neighbor_doc_id)
                                 (ensure_doc neighbor_doc_id t)) d).
    rewrite semantic_of_other by done. apply semantic_of_ensure_doc.
Qed.

Lemma process_entity_inv t entity w t' w' d :
  coherent t →
  process_entity env t entity w = (Ok t', w') →
  coherent t' ∧ semantic_of t' d = semantic_of t d.
Proof.
  intros Ht. unfold process_entity.
  intros (doc_id & w1 & _ & Hrest)%run_bind_inv. revert Hrest.
  destruct (truthy doc_id) as [doc|] eqn:Hid; [|by intros [= <- _]].
  apply truthy_Some in Hid.
  intros (name & w2 & _ & Hrest)%run_bind_inv.
  apply run_bind_inv in Hrest as (entity_id & w3 & _ & Hrest).
  apply run_bind_inv in Hrest as (neighbors & w4 & _ & Hloop).
  revert Hloop.
  apply (for_each_inv (λ t', coherent t' ∧ semantic_of t' d = semantic_of t d)).
  - intros s x w5 s' w6 _ [Hs Hsem] Hstep.
    eapply process_neighbor_inv in Hstep as [Hs' Hsem']; [|done].
    split; [done|]. by rewrite Hsem', Hsem.
  - split; [by apply on_entities_coherent, on_scores_coherent, ensure_doc_coherent|].
    unfold semantic_of at 1. cbn [on_entities file_scores].
    fold (semantic_of (on_scores (dict_alter (add_entity 1) doc) (ensure_doc doc t)) d).
    rewrite semantic_of_other by done. apply semantic_of_ensure_doc.
Qed.

Lemma process_semantics_inv (semantic_results : list Hit) (t0 : Tables) (d : string) :
  d ≠ "" → coherent t0 →
  coherent (foldl process_semantic t0 semantic_results)
  ∧ semantic_of (foldl process_semantic t0 semantic_results) d
    = foldl (add_hit d) (semantic_of t0 d) semantic_results.
Proof.
  intros Hd. revert t0.
  induction semantic_results as [|result results IH]; intros t0 Hc; [done|].
  cbn [foldl].
  destruct (process_semantic_inv t0 result d Hd Hc) as [Hc' Hq'].
  rewrite <- Hq'. by apply IH.
Qed.

(** The three dicts of the aggregation always have the same keys, so the
    ranking finds chunks and entities for every scored file; and the
    semantic score of a file is the sum, in the order of the hits, of the
    similarity scores of the hits of that file. *)
Theorem aggregate_semantic_sum query top_k w t w' semantic_results :
  vs_search_by_text env query (top_k * 3) = Ok semantic_results →
  aggregate env query top_k w = (Ok t, w') →
  coherent t
  ∧ ∀ d scores,
      dict_get d (file_scores t) = Some scores →
      is_Some (dict_get d (file_matched_chunks t))
      ∧ is_Some (dict_get d (file_matched_entities t))
      ∧ semantic_score scores = foldl (add_hit d) 0%Q semantic_results.
Proof.
  intros Hhits. unfold aggregate. rewrite run_bind. unfold call at 1. rewrite Hhits.
  intros (matching_entities & w2 & _ & Hloop)%run_bind_inv.
  assert (H0 : coherent no_tables) by (repeat split; apply not_elem_of_nil).
  assert (Hsem : ∀ d, d ≠ "" →
            coherent (foldl process_semantic no_tables semantic_results)
            ∧ semantic_of (foldl process_semantic no_tables semantic_results) d
              = foldl (add_hit d) 0%Q semantic_results).
  { intros d Hd. by apply (process_semantics_inv semantic_results no_tables d). }
  assert (Hall : coherent t ∧ ∀ d, d ≠ "" →
            semantic_of t d = foldl (add_hit d) 0%Q semantic_results).
  { revert Hloop.
    apply (for_each_inv (λ t', coherent t' ∧ ∀ d, d ≠ "" →
              semantic_of t' d = foldl (add_hit d) 0%Q semantic_results)).
    - intros s x w5 s' w6 _ [Hs Hsums] Hstep. split.
      + by eapply (process_entity_inv s x w5 s' w6 ""), Hstep.
      + intros d Hd. rewrite <- (Hsums d Hd).
        by eapply process_entity_inv, Hstep.
    - split; [apply (Hsem "x"); discriminate | intros d Hd; by apply Hsem]. }
  destruct Hall as [Hc Hsums]. split; [done|].
  intros d scores Hget. destruct Hc as (Hchunks & Hents & Hkey).
  assert (Hin : d ∈ (file_scores t).*1).
  { apply dec_stable. intros Hn%dict_get_None. congruence. }
  assert (Hd : d ≠ "") by (intros ->; done).
  split; [|split].
  - rewrite <- not_eq_None_Some, dict_get_None, Hchunks. tauto.
  - rewrite <- not_eq_None_Some, dict_get_None, Hents. tauto.
  - rewrite <- (Hsums d Hd). unfold semantic_of. by rewrite Hget.
Qed.

End Aggregation.

Section SearchExamples.
Import Neo4jClient Files.

(** A search of the library for text files, and one for files of any type. *)
Definition any_file : FileSearchRequest := Scenario.search_for None.
Definition text_files : FileSearchRequest := Scenario.search_for (Some "TXT").

Lemma search_files_sorted_witness :
  ∃ resp w',
    search_files Scenario.library any_file world0 = (Ok resp, w')
    ∧ StronglySorted by_relevance (files resp).
Proof.
  eexists _, _. split; [vm_compute; reflexivity|].
  eapply (search_files_sorted Scenario.library any_file world0).
  vm_compute. reflexivity.
Defined.

Lemma search_files_distinct_witness :
  ∃ resp w',
    search_files Scenario.library any_file world0 = (Ok resp, w')
    ∧ NoDup (file_id <$> files resp).
Proof.
  eexists _, _. split; [vm_compute; reflexivity|].
  eapply (search_files_distinct Scenario.library any_file world0).
  vm_compute. reflexivity.
Defined.

Lemma search_files_filtered_witness :
  ∃ resp w',
    search_files Scenario.library text_files world0 = (Ok resp, w')
    ∧ Forall (λ m, file_type m = "txt") (files resp).
Proof.
  eexists _, _. split; [vm_compute; reflexivity|].
  eapply Forall_impl.
  - eapply (search_files_filtered Scenario.library text_files world0).
    vm_compute. reflexivity.
  - intros m (Hfilter & _). exact (Hfilter "TXT" eq_refl).
Defined.

Lemma search_files_bounded_witness :
  ∃ resp w',
    search_files Scenario.library any_file world0 = (Ok resp, w')
    ∧ total_matches resp = length (files resp)
    ∧ Z.of_nat (length (files resp)) ≤ 10.
Proof.
  eexists _, _. split; [vm_compute; reflexivity|].
  edestruct (search_files_bounded Scenario.library any_file world0)
    as (Htotal & Hk & _); [vm_compute; reflexivity|].
  split; [exact Htotal | apply Hk; discriminate].
Defined.

Lemma search_files_relevance_at_most_one_witness :
  ∃ resp w',
    search_files Scenario.library any_file world0 = (Ok resp, w')
    ∧ Forall (λ m, (relevance_score m <= 1)%Q) (files resp).
Proof.
  eexists _, _. split; [vm_compute; reflexivity|].
  eapply (search_files_relevance_at_most_one Scenario.library any_file world0).
  vm_compute. reflexivity.
Defined.

(** One candidate, whose only hit lies further than distance 1 from the
    query. *)
Definition far_candidate : Tables :=
  {| file_scores :=
       [("d1", {| semantic_score := -0.2; entity_score := 0; graph_score := 0 |})];
     file_matched_chunks := [("d1", [])];
     file_matched_entities := [("d1", ∅)] |}.

Lemma rank_files_nothing_positive_witness :
  ∃ ranked_files w',
    rank_files Scenario.library far_candidate None 10 world0 = (Ok ranked_files, w')
    ∧ ranked_files = [].
Proof.
  eexists _, _. split; [vm_compute; reflexivity|].
  eapply (rank_files_nothing_positive Scenario.library far_candidate None 10 world0).
  - intros d scores [= -> ->]%list_elem_of_singleton. vm_compute. discriminate.
  - vm_compute. reflexivity.
Defined.

Lemma aggregate_semantic_sum_witness :
  ∃ t w' scores,
    aggregate Scenario.library "annual" 10 world0 = (Ok t, w')
    ∧ dict_get "d2" (file_scores t) = Some scores
    ∧ semantic_score scores = (0 + 0.45)%Q.
Proof.
  eexists _, _, _. split; [vm_compute; reflexivity|]. split; [vm_compute; reflexivity|].
  edestruct (aggregate_semantic_sum Scenario.library "annual" 10 world0)
    as (_ & Hsum); [reflexivity | vm_compute; reflexivity |].
  edestruct (Hsum "d2") as (_ & _ & Hsem); [vm_compute; reflexivity|].
  vm_compute in Hsem. vm_compute. exact Hsem.
Defined.

End SearchExamples.

(** ** File types and the file listing *)

(** [list_files] of [api/files.py]. The two lookups it makes,
    [get_all_documents] and [get_entity_count_by_doc], are arguments. *)
Module FileListing.

Record FileInfo : Type := {
  info_file_id : string;
  info_filename : string;
  info_file_type : string;
  info_upload_date : string;
  info_entity_count : Z;
  info_status : string
}.

(** [doc.get("file_type", doc.get("filename", "").split(".")[-1].lower())] *)
Definition listed_type (doc : Entity) : string :=
  default (lower (Files.last_segment (default "" (doc !! "filename")) ""))
          (doc !! "file_type").

(** The body of the loop over [documents]. *)
Definition list_one (get_entity_count_by_doc : string → result Z)
    (file_type : option string) (files : list FileInfo) (doc : Entity)
    : result (list FileInfo) :=
  match doc !! "id" with
  | None => Raise "'id'"
  | Some doc_id =>
      entity_count ← get_entity_count_by_doc doc_id;
      let file_info :=
        {| info_file_id := doc_id;
           info_filename := default "Unknown" (doc !! "filename");
           info_file_type := listed_type doc;
           info_upload_date := default "" (doc !! "upload_date");
           info_entity_count := entity_count;
           info_status := "complete" |} in
      if match Files.truthy file_type with
         | Some f => bool_decide (info_file_type file_info ≠ lower f)
         | None => false
         end
      then mret files
      else mret (files ++ [file_info])
  end.

Definition list_files (get_all_documents : result (list Entity))
    (get_entity_count_by_doc : string → result Z) (file_type : option string)
    : result (list FileInfo) :=
  match (documents ← get_all_documents;
         for_each documents (list_one get_entity_count_by_doc file_type) []) with
  | Ok files => Ok files
  | Raise e => Raise ("500: " +:+ e)
  end.

End FileListing.

Section FileTypes.
Import Files FileListing.

Lemma prefix_dot (c : ascii) (s : string) :
  String.prefix "." (String c s) = bool_decide (c = "."%char).
Proof.
  cbn [String.prefix]. destruct (ascii_dec "." c) as [<-|Hne].
  - rewrite bool_decide_eq_true_2 by done. by destruct s.
  - rewrite bool_decide_eq_false_2; [done | congruence].
Qed.

Lemma str_in_dot_cons (c : ascii) (s : string) :
  str_in "." (String c s) = bool_decide (c = "."%char) || str_in "." s.
Proof. cbn [str_in]. by rewrite prefix_dot. Qed.

Lemma append_cons (a : ascii) (s t : string) : String a s +:+ t = String a (s +:+ t).
Proof. reflexivity. Qed.

Lemma append_nil_r (s : string) : s +:+ "" = s.
Proof. induction s as [|a s IH]; [done|]. by rewrite append_cons, IH. Qed.

Lemma append_snoc (seg s : string) (c : ascii) :
  (seg +:+ String c "") +:+ s = seg +:+ String c s.
Proof. induction seg as [|a seg IH]; [done|]. by rewrite !append_cons, IH. Qed.

Lemma last_segment_no_dot (s seg : string) :
  str_in "." s = false → last_segment s seg = seg +:+ s.
Proof.
  revert seg. induction s as [|c s IH]; intros seg.
  - intros _. cbn [last_segment]. by rewrite append_nil_r.
  - rewrite str_in_dot_cons. intros [Hc Hs]%orb_false_iff.
    apply bool_decide_eq_false in Hc. cbn [last_segment].
    rewrite decide_False by done. rewrite IH by done. apply append_snoc.
Qed.

Lemma last_segment_after_dot (stem ext seg : string) :
  last_segment (stem +:+ String "." ext) seg = last_segment ext "".
Proof.
  revert seg. induction stem as [|c stem IH]; intros seg.
  - change ("" +:+ String "." ext) with (String "." ext). cbn [last_segment].
    by rewrite decide_True.
  - rewrite append_cons. cbn [last_segment]. case_decide; apply IH.
Qed.

Lemma str_in_dot_app (stem ext : string) : str_in "." (stem +:+ String "." ext) = true.
Proof.
  induction stem as [|c stem IH].
  - change ("" +:+ String "." ext) with (String "." ext).
    rewrite str_in_dot_cons. by rewrite bool_decide_eq_true_2.
  - rewrite append_cons, str_in_dot_cons, IH. apply orb_true_r.
Qed.

(** The type of a file is the text after its last dot, in lower case, and
    "unknown" when its name has no dot. *)
Theorem file_type_of_extension (stem ext : string) :
  str_in "." ext = false →
  file_type_of (stem +:+ String "." ext) = lower ext
  ∧ file_type_of ext = "unknown".
Proof.
  intros Hext. unfold file_type_of.
  rewrite str_in_dot_app, last_segment_after_dot, Hext.
  by rewrite last_segment_no_dot.
Qed.

(** The listing and the search agree on the type of a file whose name has
    a dot; a name without one is "unknown" to the search and its own
    lower-case spelling to the listing (when the document records no
    [file_type]). *)
Theorem listed_type_vs_search (doc : Entity) :
  doc !! "file_type" = None →
  let name := default "" (doc !! "filename") in
  (str_in "." name = true → listed_type doc = file_type_of name)
  ∧ (str_in "." name = false →
     listed_type doc = lower name ∧ file_type_of name = "unknown").
Proof.
  intros Hnone. cbv zeta. unfold listed_type, file_type_of. rewrite Hnone. cbn [default].
  split; intros Hdot; rewrite Hdot; [done|].
  by rewrite last_segment_no_dot.
Qed.

Lemma list_one_inv count file_type files doc files' :
  list_one count file_type files doc = Ok files' →
  files' = files
  ∨ ∃ info, files' = files ++ [info]
      ∧ doc !! "id" = Some (info_file_id info)
      ∧ info_file_type info = listed_type doc
      ∧ count (info_file_id info) = Ok (info_entity_count info)
      ∧ info_status info = "complete"
      ∧ ∀ f, truthy file_type = Some f → info_file_type info = lower f.
Proof.
  unfold list_one. destruct (doc !! "id") as [doc_id|]; [|discriminate].
  destruct (count doc_id) as [entity_count|] eqn:Hcount; [|discriminate].
  cbn [mbind result_bind info_file_type].
  destruct (truthy file_type) as [f|].
  - case_bool_decide as Htype; intros [= <-]; [by left|]. right.
    eexists. split; [done|]. repeat split; try done.
    intros f' [= <-]. exact Htype.
  - intros [= <-]. right. eexists. split; [done|]. by repeat split.
Qed.

(** With a file-type filter the listing returns only documents of that
    type; each entry carries the entity count the graph gave for its
    document, and there is at most one entry per document. *)
Theorem list_files_filtered documents count file_type files :
  list_files documents count file_type = Ok files →
  Forall (λ info,
            (∀ f, truthy file_type = Some f → info_file_type info = lower f)
            ∧ count (info_file_id info) = Ok (info_entity_count info)
            ∧ info_status info = "complete") files
  ∧ ∃ docs, documents = Ok docs ∧ (length files ≤ length docs)%nat.
Proof.
  unfold list_files. destruct documents as [docs|]; [|discriminate].
  cbn [mbind result_bind].
  destruct (for_each docs _ _) as [files0|] eqn:Hloop; [|discriminate].
  intros [= <-].
  assert (Hgen : ∀ acc out,
            for_each docs (list_one count file_type) acc = Ok out →
            ∃ new, out = acc ++ new
              ∧ (length new ≤ length docs)%nat
              ∧ Forall (λ info,
                   (∀ f, truthy file_type = Some f → info_file_type info = lower f)
                   ∧ count (info_file_id info) = Ok (info_entity_count info)
                   ∧ info_status info = "complete") new).
  { clear. induction docs as [|doc docs IH]; intros acc out; cbn [for_each].
    - intros [= <-]. exists []. by rewrite app_nil_r.
    - destruct (list_one count file_type acc doc) as [acc1|] eqn:Hone; [|discriminate].
      cbn [mbind result_bind]. intros (new & -> & Hlen & Hall)%IH.
      apply list_one_inv in Hone as [->|(info & -> & _ & _ & Hcount & Hst & Hf)].
      + exists new. split; [done|]. split; [cbn; lia | done].
      + exists (info :: new). rewrite <- app_assoc. split; [done|].
        split; [cbn; lia|]. by constructor. }
  destruct (Hgen [] files0 Hloop) as (new & -> & Hlen & Hall).
  split; [done|]. by exists docs.
Qed.

End FileTypes.

(** ** More on the query engine *)

Section EngineCalls.
Import Neo4jClient GraphRAGEngine.

Variable env : Collaborators.

(** The graph stage looks the entities up once, with a limit of 500, and
    then asks for at most one traversal: from the first ten matching ids,
    and only when there is one. *)
Theorem graph_traversal_calls question_entities vector_results max_hops w :
  let w' := (_graph_traversal env question_entities vector_results max_hops w).2 in
  calls w' = calls w ++ [CallGetAllEntities 500]
  ∨ ∃ raw seeds,
      run_all_entities env 500 = Ok raw
      ∧ find_matching_ids (entities_to_explore question_entities vector_results)
                          (_sanitize_record <$> raw) = Ok seeds
      ∧ seeds ≠ []
      ∧ (length (take 10 seeds) ≤ 10)%nat
      ∧ calls w' = calls w ++ [CallGetAllEntities 500;
                               CallMultiHop (take 10 seeds) max_hops].
Proof.
  cbv zeta. rewrite run_graph_traversal. cbv zeta.
  destruct (run_all_entities env 500) as [raw|e]; [|by left].
  destruct (find_matching_ids _ _) as [[|id ids]|e] eqn:Hseeds; [by left | | by left].
  right. exists raw, (id :: ids). split; [done|]. split; [done|]. split; [done|].
  split; [rewrite length_take; lia|].
  rewrite run_multi_hop_traversal. cbv zeta.
  destruct (run_multi_hop env max_hops _); cbn [snd calls logged];
    by rewrite <- app_assoc.
Qed.

(** A traversal that returns has no relationships, whatever it found. *)
Lemma graph_traversal_no_relationships question_entities vector_results max_hops
    w graph_context w' :
  _graph_traversal env question_entities vector_results max_hops w
  = (Ok graph_context, w') →
  relationships graph_context = [].
Proof.
  rewrite run_graph_traversal. cbv zeta.
  destruct (run_all_entities env 500) as [raw|e]; [|discriminate].
  destruct (find_matching_ids _ _) as [[|id ids]|e]; [by intros [= <- _] | | discriminate].
  apply traversal_relationships_empty.
Qed.

Lemma retrieve_no_relationships question mode top_k max_hops w
    start_time vector_results graph_context w' :
  retrieve env question mode top_k max_hops w
  = (Ok (start_time, vector_results, graph_context), w') →
  relationships graph_context = [].
Proof.
  unfold retrieve.
  intros (t0 & w1 & _ & Hrest)%run_bind_inv.
  apply run_bind_inv in Hrest as (vr & w2 & _ & Hrest).
  apply run_bind_inv in Hrest as (qe & w3 & _ & Hrest).
  apply run_bind_inv in Hrest as (gc & w4 & Hgraph & [= _ _ <- _]).
  revert Hgraph. case_bool_decide; [|intros Heq; by injection Heq as <- _].
  apply graph_traversal_no_relationships.
Qed.

(** What every query that returns has returned: either the text generation
    raised, and the answer is the failure message with an empty reasoning
    path; or it gave the answer, and the reasoning path is the one built
    from the retrieved contexts, of two to four steps. The graph context
    has one node per traversed entity and never an edge. *)
Theorem query_response_shape question mode top_k max_hops w resp w' :
  query env question mode top_k max_hops w = (Ok resp, w') →
  ∃ vector_results graph_context,
    evidence_list resp = _format_evidence vector_results
    ∧ GraphRAGEngine.graph_context resp = _format_graph_context graph_context
    ∧ length (nodes (GraphRAGEngine.graph_context resp))
      = length (entities graph_context)
    ∧ node_count (GraphRAGEngine.graph_context resp)
      = length (entities graph_context)
    ∧ edges (GraphRAGEngine.graph_context resp) = []
    ∧ edge_count (GraphRAGEngine.graph_context resp) = 0%nat
    ∧ ((reasoning_path resp = []
        ∧ ∃ e, answer resp = "Unable to generate answer: " +:+ e)
       ∨ (reasoning_path resp
          = _build_reasoning_path question vector_results graph_context (answer resp)
          ∧ (2 ≤ length (reasoning_path resp) ≤ 4)%nat)).
Proof.
  rewrite run_query.
  destruct (retrieve env question mode top_k max_hops w)
    as [[[[start_time vector_results] graph_context]|e] w1] eqn:Hretrieve;
    [|discriminate].
  apply retrieve_no_relationships in Hretrieve.
  unfold respond. rewrite run_bind, run_generate_answer. intros Hrun.
  exists vector_results, graph_context.
  assert (Hgc : edges (_format_graph_context graph_context) = []
                ∧ edge_count (_format_graph_context graph_context) = 0%nat
                ∧ length (nodes (_format_graph_context graph_context))
                  = length (entities graph_context)
                ∧ node_count (_format_graph_context graph_context)
                  = length (entities graph_context)).
  { unfold _format_graph_context. rewrite Hretrieve.
    cbn [nodes edges node_count edge_count omap list_omap length].
    by rewrite length_fmap. }
  destruct Hgc as (Hedges & Hcount & Hnodes & Hncount).
  revert Hrun.
  destruct (chat env _ w1) as [[text|e] w2];
    cbn [mbind M_bind mret M_ret time_time]; intros [= <- _];
    cbn [evidence_list GraphRAGEngine.graph_context reasoning_path answer];
    (split; [done|]); (split; [done|]); (split; [done|]); (split; [done|]);
    (split; [done|]); (split; [done|]).
  - right. split; [done|].
    rewrite build_reasoning_path_length. unfold expected_steps.
    destruct vector_results, (entities graph_context); cbn; lia.
  - left. split; [done|]. by exists e.
Qed.

(** Calls that do not reach the graph provider leave its count as it is. *)
Lemma graph_call_count_none (log new : list Call) :
  Forall (λ c, is_graph_call c = false) new →
  graph_call_count (log ++ new) = graph_call_count log.
Proof.
  intros Hnew. rewrite graph_call_count_app.
  assert (graph_call_count new = 0%nat) as ->; [|lia].
  unfold graph_call_count. induction Hnew as [|c new Hc _ IH]; [done|].
  rewrite filter_cons_False; [done | congruence].
Qed.

Lemma vector_not_graph_mode : "vector" ∉ ["graph"; "hybrid"].
Proof. rewrite !not_elem_of_cons. repeat split; [discriminate..|apply not_elem_of_nil]. Qed.

(** A vector query runs to its end without the graph provider. *)
Lemma vector_query_runs question top_k max_hops w :
  ∃ resp w',
    query env question "vector" top_k max_hops w = (Ok resp, w')
    ∧ graph_call_count (calls w') = graph_call_count (calls w)
    ∧ nodes (GraphRAGEngine.graph_context resp) = []
    ∧ mode_used resp = "vector"
    ∧ (∀ e, vs_search_by_text env question top_k = Raise e → evidence_list resp = []).
Proof.
  assert (Hcalls : appends (λ c, is_graph_call c = false)
                     (query env question "vector" top_k max_hops)).
  { assert (Hchat : ∀ request,
              appends (λ c, is_graph_call c = false) (chat env request)).
    { intros request. unfold chat. destruct (groq_client env); step_log. }
    unfold query. step_log.
    all: try (case_bool_decide as Hmode; [by destruct vector_not_graph_mode|]).
    all: try match goal with
             | p : (string * list ReasoningStep)%type |- _ => destruct p
             end.
    all: step_log. }
  assert (Hrun : ∃ resp w',
            query env question "vector" top_k max_hops w = (Ok resp, w')
            ∧ nodes (GraphRAGEngine.graph_context resp) = []
            ∧ mode_used resp = "vector"
            ∧ (∀ e, vs_search_by_text env question top_k = Raise e →
                    evidence_list resp = [])).
  { rewrite run_query. unfold retrieve.
    rewrite run_bind. cbn [time_time].
    set (w0 := {| calls := calls w; ticks := S (ticks w) |}).
    rewrite (bool_decide_eq_true_2 ("vector" ∈ ["vector"; "hybrid"])) by left.
    rewrite (bool_decide_eq_false_2 _ vector_not_graph_mode).
    assert (Hvs : ∃ vector_results,
              _vector_search env question top_k w0
              = (Ok vector_results, logged (CallSearchByText question top_k) w0)
              ∧ ∀ e, vs_search_by_text env question top_k = Raise e →
                     vector_results = []).
    { unfold _vector_search, try_except. rewrite run_bind. unfold call.
      destruct (vs_search_by_text env question top_k); eexists; (split; [done|]);
        [discriminate | done]. }
    destruct Hvs as (vector_results & Hvs & Hdown).
    rewrite (run_bind_ok _ _ _ _ _ Hvs).
    destruct (extract_question_entities_returns env question
                (logged (CallSearchByText question top_k) w0))
      as (question_entities & w2 & Hqe).
    rewrite (run_bind_ok _ _ _ _ _ Hqe).
    rewrite (run_bind (mret empty_subgraph)). cbn [mret M_ret].
    unfold respond. rewrite run_bind, run_generate_answer.
    destruct (chat env _ w2) as [[text|e] w3];
      cbn [mbind M_bind mret M_ret time_time];
      (eexists _, _; split; [reflexivity|]);
      (split; [done|]); (split; [done|]);
      intros e' He'; cbn [evidence_list]; by rewrite (Hdown e' He'). }
  destruct Hrun as (resp & w' & Hrun & Hnodes & Hmode & Hdown).
  exists resp, w'. split; [done|].
  destruct (Hcalls w) as (new & Hnew & Hnone). rewrite Hrun in Hnew.
  cbn [snd] in Hnew. rewrite Hnew.
  split; [by apply graph_call_count_none|]. done.
Qed.

(** In vector mode a query never calls the graph provider and always
    returns, whatever fails: its graph context is empty, and its evidence
    is empty when the vector store raised. *)
Theorem vector_mode_always_returns question top_k max_hops w :
  ∃ resp w',
    query env question "vector" top_k max_hops w = (Ok resp, w')
    ∧ graph_call_count (calls w') = graph_call_count (calls w)
    ∧ nodes (GraphRAGEngine.graph_context resp) = []
    ∧ mode_used resp = "vector"
    ∧ (∀ e, vs_search_by_text env question top_k = Raise e → evidence_list resp = []).
Proof.
  destruct (vector_query_runs question top_k max_hops w) as (resp & w' & Hrun).
  by exists resp, w'.
Qed.

End EngineCalls.

Section SearchTerms.
Import Neo4jClient GraphRAGEngine.

Variable env : Collaborators.

Lemma elem_of_lowered (names : list string) (s : gset string) (x : string) :
  x ∈ foldl (λ s entity_name, s ∪ {[ lower entity_name ]}) s names
  ↔ x ∈ s ∨ x ∈ lower <$> names.
Proof.
  revert s. induction names as [|n names IH]; intros s; cbn [foldl fmap list_fmap].
  - rewrite elem_of_nil. tauto.
  - rewrite IH, elem_of_union, elem_of_singleton, elem_of_cons. tauto.
Qed.

Lemma elem_of_mentioned (text : string) (names : list string) (s : gset string)
    (x : string) :
  x ∈ foldl (λ s entity_name,
               if str_in (lower entity_name) text
               then s ∪ {[ lower entity_name ]} else s) s names →
  x ∈ s ∨ x ∈ lower <$> names.
Proof.
  revert s. induction names as [|n names IH]; intros s; cbn [foldl fmap list_fmap].
  - by left.
  - intros [Hx|Hx]%IH; [|right; by right].
    destruct (str_in _ _); [|by left].
    apply elem_of_union in Hx as [?|Hx]; [by left|].
    apply elem_of_singleton in Hx as ->. right. left.
Qed.

Lemma mentioned_subseteq (text : string) (names : list string) (s : gset string) :
  s ⊆ foldl (λ s entity_name,
               if str_in (lower entity_name) text
               then s ∪ {[ lower entity_name ]} else s) s names.
Proof.
  revert s. induction names as [|n names IH]; intros s; cbn [foldl]; [done|].
  etrans; [|apply IH]. destruct (str_in _ _); set_solver.
Qed.

(** The search terms of the graph stage are the question entities in lower
    case, and nothing else: the loop over the vector results only adds
    terms that are there already. *)
Theorem entities_to_explore_question_only (question_entities : list string)
    (vector_results : list Hit) :
  entities_to_explore question_entities vector_results
  = list_to_set (lower <$> question_entities)
  ∧ entities_to_explore question_entities vector_results
    = entities_to_explore question_entities [].
Proof.
  assert (Hall : ∀ vr, entities_to_explore question_entities vr
                       = list_to_set (lower <$> question_entities)).
  { intros vr. apply set_eq. intros x. rewrite elem_of_list_to_set.
    unfold entities_to_explore.
    set (from_question := foldl _ ∅ question_entities).
    assert (Hq : ∀ y, y ∈ from_question ↔ y ∈ lower <$> question_entities).
    { intros y. unfold from_question. rewrite elem_of_lowered, elem_of_empty. tauto. }
    generalize from_question Hq. clear from_question Hq.
    induction vr as [|result vr IH]; intros s Hs; cbn [foldl]; [apply Hs|].
    apply IH. intros y. split.
    - intros [Hy|Hy]%elem_of_mentioned; [by apply Hs | done].
    - intros Hy%Hs. by eapply mentioned_subseteq. }
  split; [apply Hall | by rewrite !Hall].
Qed.






Lemma substring_length (n : nat) (s : string) :
  (String.length (String.substring 0 n s) ≤ n)%nat.
Proof.
  revert s. induction n as [|n IH]; intros [|c s]; cbn; try lia.
  specialize (IH s). lia.
Qed.

Lemma append_length (s t : string) :
  String.length (s +:+ t) = (String.length s + String.length t)%nat.
Proof. induction s as [|c s IH]; [done|]. rewrite append_cons. cbn. by rewrite IH. Qed.

Lemma ellipsis_length (n : nat) (s : string) :
  (String.length (ellipsis n s) ≤ n + 3)%nat
  ∧ ((String.length s ≤ n)%nat → ellipsis n s = s).
Proof.
  unfold ellipsis, str_prefix.
  destruct (n <? String.length s)%nat eqn:Hlen.
  - apply Nat.ltb_lt in Hlen. split; [|lia].
    rewrite append_length. pose proof (substring_length n s). cbn. lia.
  - apply Nat.ltb_ge in Hlen. split; [lia | done].
Qed.

(** The texts of a response are cut: a chunk of evidence has at most 500
    characters, and the evidence of the last reasoning step at most 203,
    the answer itself when it has 200 or fewer. There is one piece of
    evidence per similarity hit, with the score of the hit. *)
Theorem response_texts_bounded question vector_results graph_context answer :
  length (_format_evidence vector_results) = length vector_results
  ∧ Forall (λ ev, (String.length (ev_chunk_text ev) ≤ 500)%nat)
           (_format_evidence vector_results)
  ∧ ev_relevance_score <$> _format_evidence vector_results
    = hit_score <$> vector_results
  ∧ ∃ init final,
      _build_reasoning_path question vector_results graph_context answer
      = init ++ [final]
      ∧ (String.length (evidence final) ≤ 203)%nat
      ∧ ((String.length answer ≤ 200)%nat → evidence final = answer).
Proof.
  unfold _format_evidence. split; [apply length_fmap|]. split; [|split].
  - apply Forall_fmap, Forall_forall. intros result _. apply substring_length.
  - rewrite <- list_fmap_compose. by apply list_fmap_ext.
  - unfold _build_reasoning_path.
    destruct vector_results, (entities graph_context);
      (eexists _, _; split; [reflexivity|]); cbn [evidence];
      apply (ellipsis_length 200).
Qed.

End SearchTerms.

Section MoreExamples.
Import Neo4jClient GraphRAGEngine Files FileListing.

Lemma file_type_of_extension_witness :
  file_type_of "Annual.Report.PDF" = "pdf" ∧ file_type_of "PDF" = "unknown".
Proof.
  exact (file_type_of_extension "Annual.Report" "PDF" eq_refl).
Defined.

(** A document that was stored without an extension. *)
Definition readme : Entity := Scenario.document "d4" "README".

Lemma listed_type_vs_search_witness :
  listed_type readme = "readme" ∧ file_type_of "README" = "unknown".
Proof.
  exact (proj2 (listed_type_vs_search readme eq_refl) eq_refl).
Defined.

Lemma list_files_filtered_witness :
  ∃ files,
    list_files (Ok [Scenario.document "d1" "report.pdf"; readme]) (λ _, Ok 3)
               (Some "PDF") = Ok files
    ∧ Forall (λ info, info_file_type info = "pdf") files.
Proof.
  eexists. split; [vm_compute; reflexivity|].
  eapply Forall_impl.
  - eapply (list_files_filtered (Ok [Scenario.document "d1" "report.pdf"; readme])
              (λ _, Ok 3) (Some "PDF")).
    vm_compute. reflexivity.
  - intros info (Hf & _). exact (Hf "PDF" eq_refl).
Defined.

Lemma query_response_shape_witness :
  ∃ resp w',
    query Scenario.llm_down "Who is Alice?" "hybrid" 5 2 world0 = (Ok resp, w')
    ∧ edges (GraphRAGEngine.graph_context resp) = []
    ∧ node_count (GraphRAGEngine.graph_context resp) = 2%nat.
Proof.
  eexists _, _. split; [vm_compute; reflexivity|].
  edestruct (query_response_shape Scenario.llm_down "Who is Alice?" "hybrid" 5 2 world0)
    as (vr & gc & _ & _ & _ & _ & Hedges & _); [vm_compute; reflexivity|].
  split; [exact Hedges | vm_compute; reflexivity].
Defined.

End MoreExamples.

(** ** Paths and relationship types of the graph client *)

(** [_parse_path], [find_path_between_entities] and the sanitising of a
    relationship type in [create_relationship], of
    [database/neo4j_client.py], with [find_path] of [api/graph.py]. *)
Module GraphPaths.
Import Neo4jClient.

(** A path as the driver returns it. *)
Record Path : Type := {
  path_nodes : list RawNode;
  path_relationships : list RawNode
}.

(** An element of a parsed path: [{"type": ..., "data": ...}]. *)
Record PathItem : Type := {
  item_type : string;
  item_data : option Entity
}.

Definition _parse_path (path : Path) : list PathItem :=
  let nodes := path_nodes path in
  let rels := path_relationships path in
  concat (imap (λ i node,
                  {| item_type := "node"; item_data := _sanitize_record node |}
                  :: match rels !! i with
                     | Some rel =>
                         [{| item_type := "relationship";
                             item_data := _sanitize_record rel |}]
                     | None => []
                     end)
               nodes).

(** [record = result.single()] is the argument: the path found, if any. *)
Definition find_path_between_entities (record : result (option Path))
    : result (list PathItem) :=
  record ← record;
  match record with
  | Some path => mret (_parse_path path)
  | None => mret []
  end.

(** What [find_path] answers. *)
Record PathAnswer : Type := {
  found : bool;
  path_length : option nat;
  path : list PathItem
}.

Definition find_path (record : result (option Path)) : result PathAnswer :=
  match find_path_between_entities record with
  | Ok [] => Ok {| found := false; path_length := None; path := [] |}
  | Ok items =>
      Ok {| found := true;
            path_length :=
              Some (length (filter (λ p, item_type p = "relationship") items));
            path := items |}
  | Raise e => Raise ("500: " +:+ e)
  end.





End GraphPaths.

Section Paths.
Import Neo4jClient GraphPaths.

Definition node_item (node : RawNode) : PathItem :=
  {| item_type := "node"; item_data := _sanitize_record node |}.

Definition relationship_item (rel : RawNode) : PathItem :=
  {| item_type := "relationship"; item_data := _sanitize_record rel |}.

(** Nodes and relationships in turn, as long as there are nodes. *)
Fixpoint interleave (nodes rels : list RawNode) : list PathItem :=
  match nodes with
  | [] => []
  | node :: nodes' =>
      node_item node
      :: match rels with
         | rel :: rels' => relationship_item rel :: interleave nodes' rels'
         | [] => interleave nodes' []
         end
  end.

Lemma parse_path_interleave (path : Path) :
  _parse_path path = interleave (path_nodes path) (path_relationships path).
Proof.
  unfold _parse_path. destruct path as [nodes rels]. cbn [path_nodes path_relationships].
  revert rels. induction nodes as [|node nodes IH]; intros rels; [done|].
  cbn [imap concat interleave]. destruct rels as [|rel rels]; cbn [lookup list_lookup].
  - cbn [app]. f_equal. rewrite <- (IH []).
    f_equal; try (apply imap_ext; intros i x _; by destruct i).
  - cbn [app]. f_equal. f_equal. rewrite <- (IH rels).
    f_equal; try by apply imap_ext.
Qed.

Lemma interleave_relationships (nodes rels : list RawNode) :
  filter (λ p, item_type p = "relationship") (interleave nodes rels)
  = relationship_item <$> take (length nodes) rels.
Proof.
  revert rels. induction nodes as [|node nodes IH]; intros rels; [done|].
  cbn [interleave length]. rewrite filter_cons_False by discriminate.
  destruct rels as [|rel rels].
  - rewrite IH. by rewrite take_nil.
  - rewrite filter_cons_True by done. rewrite IH. done.
Qed.

Lemma interleave_nodes (nodes rels : list RawNode) :
  filter (λ p, item_type p = "node") (interleave nodes rels) = node_item <$> nodes.
Proof.
  revert rels. induction nodes as [|node nodes IH]; intros rels; [done|].
  cbn [interleave fmap list_fmap]. rewrite filter_cons_True by done.
  destruct rels as [|rel rels].
  - by rewrite IH.
  - rewrite filter_cons_False by discriminate. by rewrite IH.
Qed.

(** A parsed path lists every node of the path in order, and after each
    node the relationship that leaves it; for a path of [k] relationships
    between [k + 1] nodes it has [2k + 1] elements, begins and ends with a
    node, and [find_path] reports the length [k]. With no path, or an
    empty one, [find_path] reports that none was found; an exception of
    the driver becomes a 500. *)
Theorem find_path_reports_length (record : result (option Path)) :
  match record with
  | Raise e => find_path record = Raise ("500: " +:+ e)
  | Ok None => find_path record = Ok {| found := false; path_length := None; path := [] |}
  | Ok (Some p) =>
      let items := _parse_path p in
      filter (λ i, item_type i = "node") items = node_item <$> path_nodes p
      ∧ filter (λ i, item_type i = "relationship") items
        = relationship_item <$> take (length (path_nodes p)) (path_relationships p)
      ∧ (path_nodes p = [] →
         find_path record = Ok {| found := false; path_length := None; path := [] |})
      ∧ (length (path_nodes p) = S (length (path_relationships p)) →
         length items = (2 * length (path_relationships p) + 1)%nat
         ∧ (∃ first, head items = Some first ∧ item_type first = "node")
         ∧ (∃ final, last items = Some final ∧ item_type final = "node")
         ∧ find_path record
           = Ok {| found := true;
                   path_length := Some (length (path_relationships p));
                   path := items |})
  end.
Proof.
  destruct record as [[p|]|e]; [|done..].
  cbv zeta. rewrite parse_path_interleave.
  split; [apply interleave_nodes|]. split; [apply interleave_relationships|].
  split.
  - intros Hnone. unfold find_path, find_path_between_entities.
    cbn [mbind result_bind mret result_ret]. rewrite parse_path_interleave, Hnone. done.
  - intros Hlen.
    assert (Hshape : ∀ nodes rels, length nodes = S (length rels) →
              length (interleave nodes rels) = (2 * length rels + 1)%nat
              ∧ ∃ final, last (interleave nodes rels) = Some final
                         ∧ item_type final = "node").
    { clear. intros nodes. induction nodes as [|node nodes IH]; intros rels Hlen;
        [discriminate|].
      destruct rels as [|rel rels]; cbn [interleave].
      - destruct nodes; [|discriminate]. split; [done|]. by eexists.
      - destruct (IH rels) as (Hl & final & Hlast & Hfinal); [cbn in Hlen; lia|].
        split; [cbn [length]; rewrite Hl; cbn [length]; lia|].
        exists final. split; [|done].
        destruct (interleave nodes rels) as [|x l] eqn:Hi; [discriminate|].
        cbn [last]. cbn [last] in Hlast. exact Hlast. }
    destruct (Hshape _ _ Hlen) as (Hl & Hfinal).
    split; [done|]. split; [|split; [done|]].
    + destruct (path_nodes p); [discriminate|]. by eexists.
    + unfold find_path, find_path_between_entities.
      cbn [mbind result_bind mret result_ret]. rewrite parse_path_interleave.
      destruct (interleave (path_nodes p) (path_relationships p)) as [|x l] eqn:Hi;
        [cbn in Hl; lia|].
      rewrite <- Hi, interleave_relationships, length_fmap, length_take.
      do 3 f_equal. lia.
Qed.

End Paths.

Section RelationshipTypes.
Import GraphPaths.






End RelationshipTypes.

(** ** The graph for visualisation *)

(** [get_graph] of [api/graph.py], with [get_all_relationships] of the
    graph client. What the client fetched (the entities, by type or up to
    the limit, the rows of relationships and the statistics) is given. *)
Module GraphApi.
Import Neo4jClient.

(** A row of [get_all_relationships]:
    [{"source": ..., "relationship": ..., "target": ...}]. *)
Record RelRow : Type := {
  row_source : option Entity;
  row_relationship : option Entity;
  row_target : option Entity
}.

Definition get_all_relationships (result : result (list (RawNode * RawNode * RawNode)))
    : Py.result (list RelRow) :=
  match result with
  | Ok rows =>
      Ok ((λ row : RawNode * RawNode * RawNode,
             {| row_source := _sanitize_record row.1.1;
                row_relationship := _sanitize_record row.1.2;
                row_target := _sanitize_record row.2 |}) <$> rows)
  | Raise e => Raise e
  end.

Record Node : Type := {
  n_id : string;
  n_name : string;
  n_type : string;
  n_source_doc : option string;
  n_properties : Entity
}.

Record Edge : Type := {
  e_id : string;
  e_source : string;
  e_target : string;
  e_relationship : string;
  e_properties : Entity
}.

Record Graph : Type := {
  g_nodes : list Node;
  g_edges : list Edge;
  g_stats : gmap string Z
}.

(** [{k: v for k, v in d.items() if k not in keys}] *)
Definition without (keys : list string) (d : Entity) : Entity :=
  filter (λ kv : string * string, kv.1 ∉ keys) d.

(** [x.get(key, default)] on a value that may be [None]. *)
Definition get_of (x : option Entity) (key fallback : string) : result string :=
  match x with
  | Some d => Ok (default fallback (d !! key))
  | None => Raise "'NoneType' object has no attribute 'get'"
  end.

(** The body of the loop over [entities]. *)
Definition format_node (acc : list Node * gset string) (entity : option Entity)
    : result (list Node * gset string) :=
  let '(nodes, node_ids) := acc in
  node_id ← get_of entity "id" "";
  if decide (node_id = "") then mret (nodes, node_ids)
  else
    match entity with
    | Some e =>
        mret (nodes ++ [{| n_id := node_id;
                           n_name := default "Unknown" (e !! "name");
                           n_type := default "Entity" (e !! "type");
                           n_source_doc := e !! "source_doc";
                           n_properties :=
                             without ["id"; "name"; "type"; "source_doc"] e |}],
              node_ids ∪ {[ node_id ]})
    | None => Raise "'NoneType' object has no attribute 'get'"
    end.

(** The body of the loop over [relationships]. *)
Definition format_edge (node_ids : gset string) (edges : list Edge) (rel : RelRow)
    : result (list Edge) :=
  source_id ← get_of (row_source rel) "id" "";
  target_id ← get_of (row_target rel) "id" "";
  if bool_decide (source_id ∈ node_ids) && bool_decide (target_id ∈ node_ids)
  then
    match row_relationship rel with
    | Some relationship =>
        mret (edges ++ [{| e_id := default (source_id +:+ "_" +:+ target_id)
                                           (relationship !! "id");
                           e_source := source_id;
                           e_target := target_id;
                           e_relationship :=
                             default "RELATES_TO" (relationship !! "relationship");
                           e_properties :=
                             without ["id"; "relationship"] relationship |}])
    | None => Raise "'NoneType' object has no attribute 'get'"
    end
  else mret edges.

Definition get_graph (fetched_entities : result (list (option Entity)))
    (fetched_relationships : result (list RelRow))
    (fetched_stats : result (gmap string Z)) : result Graph :=
  match (entities ← fetched_entities;
         relationships ← fetched_relationships;
         '(nodes, node_ids) ← for_each entities format_node ([], ∅);
         edges ← for_each relationships (format_edge node_ids) [];
         stats ← fetched_stats;
         mret {| g_nodes := nodes; g_edges := edges; g_stats := stats |}) with
  | Ok graph => Ok graph
  | Raise e => Raise ("500: " +:+ e)
  end.

End GraphApi.

(** A loop of code that only raises keeps what every round keeps. *)
Lemma for_each_result_inv {A S : Type} (I : S → Prop) (l : list A)
    (body : S → A → result S) (acc acc' : S) :
  (∀ s x s', x ∈ l → I s → body s x = Ok s' → I s') →
  I acc →
  for_each l body acc = Ok acc' →
  I acc'.
Proof.
  revert acc. induction l as [|x l IH]; intros acc Hbody Hacc; cbn [for_each].
  - by intros [= <-].
  - destruct (body acc x) as [s|e] eqn:Hx; [|discriminate].
    cbn [mbind result_bind]. apply IH; [|by eapply Hbody; [left|..]].
    intros ? ? ? Hin. apply Hbody. by right.
Qed.

Section GraphForVisualisation.
Import Neo4jClient GraphApi.

(** The graph returned for visualisation has no dangling edge: both ends
    of every edge are ids of returned nodes. No node has an empty id, a
    node's properties leave out its id, name, type and source document,
    and there are no more nodes than entities and no more edges than
    relationships. *)
Theorem get_graph_no_dangling_edges entities relationships stats graph :
  get_graph entities relationships stats = Ok graph →
  Forall (λ e, e_source e ∈ n_id <$> g_nodes graph
               ∧ e_target e ∈ n_id <$> g_nodes graph) (g_edges graph)
  ∧ Forall (λ n, n_id n ≠ ""
                 ∧ ∀ k, k ∈ ["id"; "name"; "type"; "source_doc"] →
                        n_properties n !! k = None) (g_nodes graph)
  ∧ ∃ es rs,
      entities = Ok es ∧ relationships = Ok rs
      ∧ (length (g_nodes graph) ≤ length es)%nat
      ∧ (length (g_edges graph) ≤ length rs)%nat.
Proof.
  unfold get_graph.
  destruct entities as [es|]; [|discriminate].
  destruct relationships as [rs|]; [|discriminate].
  cbn [mbind result_bind].
  destruct (for_each es format_node ([], ∅)) as [[nodes node_ids]|] eqn:Hnodes;
    [|discriminate].
  cbn [mbind result_bind].
  destruct (for_each rs (format_edge node_ids) []) as [edges|] eqn:Hedges;
    [|discriminate].
  destruct stats as [st|]; [|discriminate]. intros [= <-]. cbn [g_nodes g_edges].
  assert (Hn : (∀ x, x ∈ node_ids → x ∈ n_id <$> nodes)
               ∧ Forall (λ n, n_id n ≠ ""
                    ∧ ∀ k, k ∈ ["id"; "name"; "type"; "source_doc"] →
                           n_properties n !! k = None) nodes).
  { revert Hnodes.
    apply (for_each_result_inv
             (λ acc : list Node * gset string,
                (∀ x, x ∈ acc.2 → x ∈ n_id <$> acc.1)
                ∧ Forall (λ n, n_id n ≠ ""
                     ∧ ∀ k, k ∈ ["id"; "name"; "type"; "source_doc"] →
                            n_properties n !! k = None) acc.1)).
    - intros [ns ids] entity [ns' ids'] _ [Hids Hall]. unfold format_node.
      destruct entity as [e|]; [|discriminate]. cbn [get_of mbind result_bind].
      case_decide as Hid; intros [= <- <-]; [done|]. cbn [fst snd] in *. split.
      + intros x [Hx|Hx]%elem_of_union; rewrite fmap_app, elem_of_app.
        * left. by apply Hids.
        * right. apply elem_of_singleton in Hx as ->. left.
      + apply Forall_app. split; [done|]. apply Forall_singleton. cbn [n_id n_properties].
        split; [done|]. intros k Hk. unfold without.
        apply map_lookup_filter_None. right. intros v _ Hnot. by apply Hnot.
    - split; [intros x Hx; by apply elem_of_empty in Hx | constructor]. }
  destruct Hn as [Hids Hall].
  assert (He : Forall (λ e, e_source e ∈ n_id <$> nodes ∧ e_target e ∈ n_id <$> nodes)
                      edges).
  { revert Hedges. apply for_each_result_inv; [|constructor].
    intros acc rel acc' _ Hacc. unfold format_edge.
    destruct (row_source rel) as [s|]; [|discriminate].
    destruct (row_target rel) as [t|]; [|discriminate].
    cbn [get_of mbind result_bind].
    destruct (bool_decide _ && bool_decide _) eqn:Hboth; [|by intros [= <-]].
    apply andb_true_iff in Hboth as [Hs%bool_decide_eq_true Ht%bool_decide_eq_true].
    destruct (row_relationship rel); [|discriminate]. intros [= <-].
    apply Forall_app. split; [done|]. apply Forall_singleton. cbn [e_source e_target].
    split; by apply Hids. }
  split; [done|]. split; [done|]. exists es, rs. split; [done|]. split; [done|].
  split.
  - assert (Hlen : ∀ acc out, for_each es format_node acc = Ok out →
              (length out.1 ≤ length acc.1 + length es)%nat).
    { clear. induction es as [|e es IH]; intros acc out; cbn [for_each].
      - intros [= <-]. lia.
      - destruct (format_node acc e) as [acc1|] eqn:Hone; [|discriminate].
        cbn [mbind result_bind]. intros Hrest%IH. cbn [length].
        assert (length acc1.1 ≤ S (length acc.1))%nat; [|lia].
        unfold format_node in Hone. destruct acc as [ns ids].
        destruct e as [e|]; [|discriminate]. cbn [get_of mbind result_bind] in Hone.
        case_decide; injection Hone as <-; cbn [fst]; [lia|].
        rewrite length_app. cbn. lia. }
    apply Hlen in Hnodes. cbn in Hnodes. lia.
  - assert (Hlen : ∀ acc out, for_each rs (format_edge node_ids) acc = Ok out →
              (length out ≤ length acc + length rs)%nat).
    { clear. induction rs as [|r rs IH]; intros acc out; cbn [for_each].
      - intros [= <-]. lia.
      - destruct (format_edge node_ids acc r) as [acc1|] eqn:Hone; [|discriminate].
        cbn [mbind result_bind]. intros Hrest%IH. cbn [length].
        assert (length acc1 ≤ S (length acc))%nat; [|lia].
        unfold format_edge in Hone.
        destruct (row_source r); [|discriminate].
        destruct (row_target r); [|discriminate].
        cbn [get_of mbind result_bind] in Hone.
        destruct (bool_decide _ && bool_decide _); [|injection Hone as <-; lia].
        destruct (row_relationship r); [|discriminate]. injection Hone as <-.
        rewrite length_app. cbn. lia. }
    apply Hlen in Hedges. cbn in Hedges. lia.
Qed.

End GraphForVisualisation.

(** ** The vector store *)

(** [search_by_text] of [database/vector_store.py]. The outcome of
    [self.collection.query(...)] is given; the embedding of the query text
    cannot raise, [generate_embeddings] falling back to a dummy vector. *)
Module VectorStore.







End VectorStore.

Section VectorStoreProperties.
Import VectorStore.




End VectorStoreProperties.

(** ** The query endpoints *)

(** [execute_query] and [generate_answer] of [api/query.py]. *)
Module QueryApi.
Import GraphRAGEngine.

Inductive QueryMode : Type := VECTOR | GRAPH | HYBRID.

(** [mode.value] *)
Definition mode_value (mode : QueryMode) : string :=
  match mode with
  | VECTOR => "vector"
  | GRAPH => "graph"
  | HYBRID => "hybrid"
  end.

(** [QueryMode(value)] *)
Definition mode_of_value (value : string) : M QueryMode :=
  if decide (value = "vector") then mret VECTOR
  else if decide (value = "graph") then mret GRAPH
  else if decide (value = "hybrid") then mret HYBRID
  else raise ("'" +:+ value +:+ "' is not a valid QueryMode").

Record QueryRequest : Type := {
  q_question : string;
  q_mode : QueryMode;
  q_top_k : Z;
  q_max_hops : Z
}.

Record QueryResponse : Type := {
  r_question : string;
  r_answer : string;
  r_reasoning_path : list ReasoningStep;
  r_evidence : list Evidence;
  r_graph_context : GraphData;
  r_mode_used : QueryMode;
  r_processing_time_ms : Q
}.

Definition execute_query (env : Collaborators) (request : QueryRequest)
    : M QueryResponse :=
  try_except
    (result ← query env (q_question request) (mode_value (q_mode request))
                        (q_top_k request) (q_max_hops request);
     mode_used ← mode_of_value (mode_used result);
     mret {| r_question := question result;
             r_answer := answer result;
             r_reasoning_path := reasoning_path result;
             r_evidence := evidence_list result;
             r_graph_context := graph_context result;
             r_mode_used := mode_used;
             r_processing_time_ms := processing_time_ms result |})
    Files.http_500.

(** What [generate_answer] returns. *)
Record AnswerSummary : Type := {
  s_question : string;
  s_answer : string;
  sources_used : nat;
  entities_found : nat
}.

Definition generate_answer (env : Collaborators) (question : string)
    (context : option string) (include_graph : bool) : M AnswerSummary :=
  try_except
    (result ← query env question (if include_graph then "hybrid" else "vector") 5 2;
     mret {| s_question := question;
             s_answer := answer result;
             sources_used := length (evidence_list result);
             entities_found := length (nodes (graph_context result)) |})
    Files.http_500.

End QueryApi.

Section QueryEndpoints.
Import Neo4jClient GraphRAGEngine QueryApi.

Variable env : Collaborators.

Lemma mode_round_trip (mode : QueryMode) (w : World) :
  mode_of_value (mode_value mode) w = (Ok mode, w).
Proof. by destruct mode. Qed.

Lemma mode_value_graph (mode : QueryMode) :
  mode ≠ VECTOR → mode_value mode ∈ ["graph"; "hybrid"].
Proof. destruct mode; [done | left | right; left]. Qed.

(** What the query endpoint does with the outcome of the engine: a result
    is passed on with the mode that was asked for; a vector query always
    gets one; and in the graph and hybrid modes a failure of the entity
    lookup of the graph provider becomes a 500 that carries its message. *)
Theorem execute_query_outcomes (request : QueryRequest) (w : World) :
  (∀ resp w', execute_query env request w = (Ok resp, w') →
     r_mode_used resp = q_mode request ∧ r_question resp = q_question request)
  ∧ (q_mode request = VECTOR →
     ∃ resp w', execute_query env request w = (Ok resp, w'))
  ∧ (∀ e, q_mode request ≠ VECTOR →
       run_all_entities env 500 = Raise e →
       ∃ w', execute_query env request w = (Raise ("500: " +:+ e), w')).
Proof.
  unfold execute_query, try_except. rewrite run_bind. split; [|split].
  - intros resp w'.
    destruct (query env _ _ _ _ w) as [[result|e] w1] eqn:Hquery; [|discriminate].
    assert (Hmode : mode_used result = mode_value (q_mode request)
                    ∧ question result = q_question request).
    { rewrite run_query in Hquery.
      destruct (retrieve _ _ _ _ _ _) as [[[[t0 vr] gc]|] w2]; [|discriminate].
      unfold respond in Hquery. rewrite run_bind, run_generate_answer in Hquery.
      destruct (chat env _ w2) as [[text|e] w3];
        cbn [mbind M_bind mret M_ret time_time] in Hquery;
        by injection Hquery as <- _. }
    destruct Hmode as [Hmode Hq]. rewrite run_bind, Hmode, mode_round_trip.
    cbn [mret M_ret]. intros [= <- _]. by cbn.
  - intros Hvector. rewrite Hvector. cbn [mode_value].
    destruct (vector_query_runs env (q_question request) (q_top_k request)
                (q_max_hops request) w) as (result & w1 & Hquery & _ & _ & Hmode & _).
    rewrite Hquery, run_bind, Hmode. cbn. eauto.
  - intros e Hmode Hdown.
    destruct (graph_lookup_failure_propagates env (q_question request)
                (mode_value (q_mode request)) (q_top_k request) (q_max_hops request)
                w e (mode_value_graph _ Hmode) Hdown) as (w1 & Hquery).
    rewrite Hquery. by eexists.
Qed.

(** Asked to leave the graph out, [generate_answer] always answers, finds
    no entity and calls the graph provider not once; in every answer the
    counts are those of the evidence and of the nodes of the query. *)
Theorem generate_answer_without_graph (question : string) (context : option string)
    (w : World) :
  ∃ summary w',
    generate_answer env question context false w = (Ok summary, w')
    ∧ entities_found summary = 0%nat
    ∧ s_question summary = question
    ∧ graph_call_count (calls w') = graph_call_count (calls w).
Proof.
  unfold generate_answer, try_except. rewrite run_bind.
  destruct (vector_query_runs env question 5 2 w)
    as (result & w1 & Hquery & Hcount & Hnodes & _).
  rewrite Hquery. cbn [mret M_ret]. eexists _, _. split; [reflexivity|].
  cbn [entities_found s_question]. by rewrite Hnodes.
Qed.

End QueryEndpoints.

Section GraphExamples.
Import Neo4jClient GraphApi.

(** Alice knows Bob and Carol, but only Alice and Bob were fetched. *)
Definition two_of_three : result (list (option Entity)) :=
  Ok (_sanitize_record <$> [Scenario.alice; Scenario.bob]).

Definition three_rows : result (list RelRow) :=
  get_all_relationships
    (Ok [(Scenario.alice, Scenario.knows, Scenario.bob);
         (Scenario.alice, Scenario.knows, Scenario.node "e3" "Carol")]).

Lemma get_graph_no_dangling_edges_witness :
  ∃ graph,
    get_graph two_of_three three_rows (Ok ∅) = Ok graph
    ∧ n_id <$> g_nodes graph = ["e1"; "e2"]
    ∧ e_target <$> g_edges graph = ["e2"]
    ∧ Forall (λ e, e_source e ∈ n_id <$> g_nodes graph
                   ∧ e_target e ∈ n_id <$> g_nodes graph) (g_edges graph).
Proof.
  eexists. split; [vm_compute; reflexivity|].
  split; [vm_compute; reflexivity|]. split; [vm_compute; reflexivity|].
  edestruct (get_graph_no_dangling_edges two_of_three three_rows (Ok ∅))
    as (Hedges & _); [vm_compute; reflexivity|].
  exact Hedges.
Defined.

End GraphExamples.
